(** * Resume analyzer: the text-scoring core of [app.py]

    A shallow embedding of [app.py]: the ATS feature extractors, the ATS
    scorer and its feedback, contact and name extraction, the job-match
    scorer, and the three upload routes with the database they write to;
    followed by the properties the specification states about them and by
    further properties of the code.

    Modelling conventions.
    - A Python [str] is a [list ascii]; a character is a code point in
      U+0000..U+00FF (the Latin-1 block), classified as Python 3 classifies
      it ([str.isspace], [str.isalpha], [str.lower], and the [re] classes
      [\w], [\d], [\s] on [str] patterns).
    - A Python [float] is its exact value, a rational ([Q]).  In the match
      scorer and in [round] every operation returns the binary64 number
      nearest to the exact result, as IEEE 754 arithmetic does (overflow
      apart: these numbers lie between 0 and 100).  The sub-scores of the
      ATS scorer and their weighted sum are exact rationals instead: a
      literal such as [0.3] is 3/10 and nothing is rounded there, so a
      score of the code can differ from the one here in its last binary
      places.
    - An exception is a value of the error monad [result].
    - A Python [set] is a [gset], a [dict] a [gmap].
    - The [re] module is a backtracking matcher over a regex syntax tree
      that lists its ways of matching in the order in which Python tries
      them. *)

From Stdlib Require Import QArith Qround Qabs Qpower Ascii String NArith Lia Lqa.
From stdpp Require Import gmap strings list.

(** ** Characters and strings *)

Abbreviation text := (list ascii).

Definition str (s : string) : text := list_ascii_of_string s.

Definition code (c : ascii) : N := N_of_ascii c.

Definition in_range (lo hi : N) (c : ascii) : bool :=
  ((lo <=? code c) && (code c <=? hi))%N.

Definition is_code (n : N) (c : ascii) : bool := (code c =? n)%N.

(** [str.isspace]: the separators of [str.split()] and the class [\s]. *)
Definition py_isspace (c : ascii) : bool :=
  in_range 9 13 c || in_range 28 32 c || is_code 133 c || is_code 160 c.

(** Characters that [str.lower] changes. *)
Definition is_upper (c : ascii) : bool :=
  in_range 65 90 c || (in_range 192 222 c && negb (is_code 215 c)).

(** Lower-case characters whose upper-case form is again in the block. *)
Definition has_upper (c : ascii) : bool :=
  in_range 97 122 c || (in_range 224 254 c && negb (is_code 247 c)).

Definition lower_char (c : ascii) : ascii :=
  if is_upper c then ascii_of_N (code c + 32) else c.

Definition upper_char (c : ascii) : ascii :=
  if has_upper c then ascii_of_N (code c - 32) else c.

(** [str.isalpha] on one character. *)
Definition is_alpha (c : ascii) : bool :=
  in_range 65 90 c || in_range 97 122 c
  || is_code 170 c || is_code 181 c || is_code 186 c
  || in_range 192 214 c || in_range 216 246 c || in_range 248 255 c.

(** The class [\d]: decimal digits. *)
Definition is_decimal (c : ascii) : bool := in_range 48 57 c.

(** The class [\w]: alphanumeric characters and the underscore. *)
Definition is_word (c : ascii) : bool :=
  is_alpha c || is_decimal c || is_code 95 c
  || is_code 178 c || is_code 179 c || is_code 185 c || in_range 188 190 c.

(** Cased characters, as [str.title] sees them. *)
Definition is_cased (c : ascii) : bool :=
  is_upper c || has_upper c
  || is_code 170 c || is_code 181 c || is_code 186 c
  || is_code 223 c || is_code 255 c.

(** [s.lower()]: within the block, character by character (outside it
    [str.lower] also looks at what surrounds a capital sigma). *)
Definition py_lower (s : text) : text := map lower_char s.

(** [s.isalpha()]: non-empty and alphabetic throughout. *)
Definition py_isalpha (s : text) : bool :=
  match s with
  | [] => false
  | _ => forallb is_alpha s
  end.

(** [s.split()]: the maximal runs of non-whitespace characters.  [acc] is
    the current run, reversed. *)
Fixpoint split_acc (acc : text) (s : text) : list text :=
  match s with
  | [] => match acc with [] => [] | _ => [rev acc] end
  | c :: s' =>
      if py_isspace c
      then match acc with
           | [] => split_acc [] s'
           | _ => rev acc :: split_acc [] s'
           end
      else split_acc (c :: acc) s'
  end.

Definition py_split (s : text) : list text := split_acc [] s.

(** [s.title()]: a cased character is upper-cased when the character
    before it is not cased, and lower-cased otherwise.  The three
    lower-case characters whose capital lies outside the block stay as they
    are; name extraction only titles strings of A-Z and whitespace. *)
Fixpoint title_from (prev_cased : bool) (s : text) : text :=
  match s with
  | [] => []
  | c :: s' =>
      (if prev_cased then lower_char c else upper_char c)
        :: title_from (is_cased c) s'
  end.

Definition py_title (s : text) : text := title_from false s.

(** [needle in hay] on strings. *)
Fixpoint starts_with (p s : text) : bool :=
  match p, s with
  | [], _ => true
  | a :: p', b :: s' => bool_decide (a = b) && starts_with p' s'
  | _ :: _, [] => false
  end.

Fixpoint py_contains (needle hay : text) : bool :=
  starts_with needle hay
  || match hay with
     | [] => false
     | _ :: hay' => py_contains needle hay'
     end.

(** ** Numbers and exceptions *)

Inductive exn := ZeroDivisionError | KeyError | IndexError.

Inductive result (A : Type) :=
| Ok (a : A)
| Raise (e : exn).
Arguments Ok {A} a.
Arguments Raise {A} e.

#[global] Instance result_ret : MRet result := fun _ a => Ok a.
#[global] Instance result_bind : MBind result := fun _ _ f m =>
  match m with
  | Ok a => f a
  | Raise e => Raise e
  end.

(** [a / b], exact. *)
Definition py_div (a b : Q) : result Q :=
  if Qeq_bool b 0 then Raise ZeroDivisionError else Ok (a / b)%Q.

(** [min(a, b)]: the first argument unless the second is smaller. *)
Definition py_min (a b : Q) : Q :=
  match (b ?= a)%Q with
  | Lt => b
  | _ => a
  end.

(** [len(l)] as a number. *)
Definition len {A} (l : list A) : Q := inject_Z (Z.of_nat (length l)).

(** The integer nearest to [x], ties to the even one. *)
Definition round_half_even (x : Q) : Z :=
  let n := Qnum x in
  let d := Zpos (Qden x) in
  let q := (n / d)%Z in
  match (2 * (n mod d) ?= d)%Z with
  | Lt => q
  | Gt => (q + 1)%Z
  | Eq => if Z.even q then q else (q + 1)%Z
  end.

(** *** binary64 *)

(** The binade of a positive rational: the [e] with [2^e <= x < 2^(e+1)]. *)
Definition exponent (x : Q) : Z :=
  let e := (Z.log2 (Qnum x) - Z.log2 (Zpos (Qden x)))%Z in
  if Qle_bool (2 ^ e) x then e else (e - 1)%Z.

(** The exponent of the last of the 53 significant bits of the float
    nearest to [x], which is never below that of the subnormal numbers. *)
Definition last_place (x : Q) : Z :=
  Z.max (exponent (Qabs x) - 52) (-1074).

(** The binary64 number nearest to [x], ties to the even significand.
    Numbers from 2^1024 on, which overflow, do not occur in the code. *)
Definition binary64 (x : Q) : Q :=
  if Qeq_bool x 0 then 0
  else
    let e := last_place x in
    Qred (inject_Z (round_half_even (x / 2 ^ e)) * 2 ^ e).

(** [a / b] on two [int]s, which Python rounds correctly, and on floats. *)
Definition float_div (a b : Q) : result Q :=
  if Qeq_bool b 0 then Raise ZeroDivisionError else Ok (binary64 (a / b)).

(** [x * y] on floats. *)
Definition float_mul (x y : Q) : Q := binary64 (x * y).

(** [round(x, 2)] on a float: the decimal with two places nearest to the
    exact value of [x], ties to the even one, and then the float nearest
    to that decimal. *)
Definition py_round2 (x : Q) : Q :=
  binary64 (inject_Z (round_half_even (x * 100)) / 100).

(** ** The [re] module *)

Inductive citem :=
| ILit (c : ascii)          (* a literal character *)
| IRange (lo hi : ascii)    (* lo-hi *)
| IWord                     (* \w *)
| IDigit                    (* \d *)
| ISpace.                   (* \s *)

Inductive regex :=
| Eps
| Chars (items : list citem)            (* one character of a class *)
| Bnd                                   (* \b *)
| Cat (r1 r2 : regex)
| Alt (r1 r2 : regex)                   (* r1|r2, r1 tried first *)
| Rep (r : regex) (lo : nat) (hi : option nat).   (* greedy r{lo,hi} *)

Definition item_raw (it : citem) (c : ascii) : bool :=
  match it with
  | ILit a => bool_decide (a = c)
  | IRange lo hi => in_range (code lo) (code hi) c
  | IWord => is_word c
  | IDigit => is_decimal c
  | ISpace => py_isspace c
  end.

(** With [re.I] a character also matches through its other case. *)
Definition item_match (ic : bool) (it : citem) (c : ascii) : bool :=
  item_raw it c
  || (ic && (item_raw it (lower_char c) || item_raw it (upper_char c))).

Definition class_match (ic : bool) (items : list citem) (c : ascii) : bool :=
  existsb (fun it => item_match ic it c) items.

(** A matcher state: the character before the cursor, if any, and the
    input that is left. *)
Definition mstate : Type := option ascii * text.

Definition is_word_opt (o : option ascii) : bool :=
  match o with
  | Some c => is_word c
  | None => false
  end.

Definition at_boundary (st : mstate) : bool :=
  xorb (is_word_opt st.1) (is_word_opt (head st.2)).

(** Greedy repetition.  Every pass of a body that consumes input shortens
    the input, so [fuel], the length of the input, is never the limit. *)
Fixpoint rep_loop (body : mstate -> list mstate) (fuel lo : nat)
    (hi : option nat) (st : mstate) : list mstate :=
  let stop := match lo with O => [st] | S _ => [] end in
  match fuel with
  | O => stop
  | S fuel' =>
      match hi with
      | Some O => stop
      | _ =>
          flat_map (rep_loop body fuel' (pred lo) (pred <$> hi)) (body st)
            ++ stop
      end
  end.

(** All the ways in which [r] matches at the cursor, in the order in which
    a backtracking matcher finds them; each is the state after the match. *)
Fixpoint run (ic : bool) (r : regex) (st : mstate) : list mstate :=
  match r with
  | Eps => [st]
  | Chars items =>
      match st.2 with
      | c :: s' => if class_match ic items c then [(Some c, s')] else []
      | [] => []
      end
  | Bnd => if at_boundary st then [st] else []
  | Cat r1 r2 => flat_map (run ic r2) (run ic r1 st)
  | Alt r1 r2 => run ic r1 st ++ run ic r2 st
  | Rep r' lo hi => rep_loop (run ic r') (length st.2) lo hi st
  end.

(** The length of the match at the cursor: that of the first way. *)
Definition match_len (ic : bool) (r : regex) (st : mstate) : option nat :=
  match run ic r st with
  | [] => None
  | st' :: _ => Some (length st.2 - length st'.2)
  end.

(** [re.search]: the leftmost match, as the matched string. *)
Fixpoint search_from (ic : bool) (r : regex) (prev : option ascii)
    (s : text) : option text :=
  match match_len ic r (prev, s) with
  | Some n => Some (take n s)
  | None =>
      match s with
      | [] => None
      | c :: s' => search_from ic r (Some c) s'
      end
  end.

Definition re_search (ic : bool) (r : regex) (s : text) : option text :=
  search_from ic r None s.

(** The truth value of what [re.search] returns. *)
Definition found (m : option text) : bool :=
  match m with
  | Some _ => true
  | None => false
  end.

(** [re.findall]: the matches from left to right, none overlapping.
    [skip] counts the characters of the last match still to step over. *)
Fixpoint findall_from (ic : bool) (r : regex) (skip : nat)
    (prev : option ascii) (s : text) : list text :=
  match skip with
  | S k =>
      match s with
      | [] => []
      | c :: s' => findall_from ic r k (Some c) s'
      end
  | O =>
      match match_len ic r (prev, s) with
      | Some n =>
          take n s ::
            match s with
            | [] => []
            | c :: s' => findall_from ic r (pred n) (Some c) s'
            end
      | None =>
          match s with
          | [] => []
          | c :: s' => findall_from ic r 0 (Some c) s'
          end
      end
  end.

Definition re_findall (ic : bool) (r : regex) (s : text) : list text :=
  findall_from ic r 0 None s.

(** Pattern syntax. *)
Definition seq_of (rs : list regex) : regex := foldr Cat Eps rs.

Fixpoint alt_of (r : regex) (rs : list regex) : regex :=
  match rs with
  | [] => r
  | r' :: rs' => Alt r (alt_of r' rs')
  end.

Definition Lit (s : string) : regex :=
  seq_of (map (fun c => Chars [ILit c]) (str s)).

Definition plus (r : regex) : regex := Rep r 1 None.
Definition star (r : regex) : regex := Rep r 0 None.
Definition opt (r : regex) : regex := Rep r 0 (Some 1).

(** ** ATS scoring functions *)

Definition ATS_PARAMETERS : list (string * Q) :=
  [ ("keyword_density", 0.3); ("action_verbs", 0.15);
    ("quantifiable_results", 0.2); ("structure", 0.15);
    ("contact_info", 0.1); ("length", 0.1) ]%Q.

Definition ACTION_VERBS : list string :=
  [ "achieved"; "managed"; "developed"; "led"; "implemented";
    "increased"; "reduced"; "optimized"; "created"; "designed" ].

Definition Qltb (a b : Q) : bool :=
  match (a ?= b)%Q with
  | Lt => true
  | _ => false
  end.

Definition digit : regex := Chars [IDigit].
Definition space : regex := Chars [ISpace].
Definition capital : regex := Chars [IRange "A" "Z"].

(** [\w+] *)
Definition word_pattern : regex := plus (Chars [IWord]).

(** [\b(\d+%|\d+\+|\$?\d+\s?[km]?|\d+\s?(years|months))\b] *)
Definition quantifier_pattern : regex :=
  seq_of
    [ Bnd;
      alt_of (seq_of [plus digit; Lit "%"])
        [ seq_of [plus digit; Lit "+"];
          seq_of [opt (Lit "$"); plus digit; opt space;
                  opt (Chars [ILit "k"; ILit "m"])];
          seq_of [plus digit; opt space; alt_of (Lit "years") [Lit "months"]] ];
      Bnd ].

(** [\b{section}\b] *)
Definition section_pattern (section : string) : regex :=
  seq_of [Bnd; Lit section; Bnd].

(** [(\d{4})\s*-\s*(present|\d{4})] *)
Definition date_range_pattern : regex :=
  seq_of
    [ Rep digit 4 (Some 4); star space; Lit "-"; star space;
      alt_of (Lit "present") [Rep digit 4 (Some 4)] ].

(** [[\w\.-]+@[\w\.-]+] *)
Definition email_pattern : regex :=
  let part := plus (Chars [IWord; ILit "."; ILit "-"]) in
  seq_of [part; Lit "@"; part].

(** [\+?\d[\d -]{8,}\d] *)
Definition phone_pattern : regex :=
  seq_of
    [ opt (Lit "+"); digit;
      Rep (Chars [IDigit; ILit " "; ILit "-"]) 8 None; digit ].

(** [linkedin\.com|github\.com] *)
Definition profile_pattern : regex :=
  alt_of (Lit "linkedin.com") [Lit "github.com"].

(** [len(re.findall(r'\w+', text))] *)
Definition word_count (t : text) : nat :=
  length (re_findall false word_pattern t).

Section Ats.

(** [stopwords.words('english')]: the NLTK corpus, which is not part of
    the repository. *)
Variable stop_list : list text.

Definition calculate_keyword_density (t : text) : result Q :=
  let words :=
    map py_lower (filter (fun w => py_isalpha w = true)
                    (re_findall false word_pattern t)) in
  let stop_words : gset text := list_to_set stop_list in
  let filtered_words := filter (fun w => w ∉ stop_words) words in
  let word_counts : gset text := list_to_set filtered_words in
  d ← py_div (inject_Z (Z.of_nat (size word_counts))) 50;
  mret (py_min d 1).

Definition count_action_verbs (t : text) : result Q :=
  let verbs_found :=
    filter (fun verb => py_contains (str verb) (py_lower t) = true)
      ACTION_VERBS in
  d ← py_div (len verbs_found) 5;
  mret (py_min d 1).

Definition check_quantifiable_results (t : text) : result Q :=
  let quantifiers := re_findall true quantifier_pattern t in
  d ← py_div (len quantifiers) 3;
  mret (py_min d 1).

Definition sections : list string :=
  ["experience"; "education"; "skills"; "summary"; "projects"].

Definition evaluate_structure (t : text) : Q :=
  let structure_score :=
    fold_left
      (fun score section =>
         if found (re_search true (section_pattern section) t)
         then (score + 0.2)%Q else score)
      sections 0%Q in
  let structure_score :=
    if found (re_search false date_range_pattern t)
    then (structure_score + 0.2)%Q else structure_score in
  py_min structure_score 1.

Definition check_contact_info (t : text) : result Q :=
  let contact_items := 0%Q in
  let contact_items :=
    if found (re_search false email_pattern t)
    then (contact_items + 1)%Q else contact_items in
  let contact_items :=
    if found (re_search false phone_pattern t)
    then (contact_items + 1)%Q else contact_items in
  let contact_items :=
    if found (re_search false profile_pattern t)
    then (contact_items + 1)%Q else contact_items in
  py_div contact_items 3.

Definition check_length (t : text) : Q :=
  let word_count := word_count t in
  if (400 <=? word_count) && (word_count <=? 800) then 1
  else if ((300 <=? word_count) && (word_count <? 400))
          || ((800 <? word_count) && (word_count <=? 1000)) then 0.5
  else 0.

(** [scores[param]] *)
Definition dict_get (d : gmap string Q) (k : string) : result Q :=
  match d !! k with
  | Some v => Ok v
  | None => Raise KeyError
  end.

(** [sum(scores[param] * weight for param, weight in items)] *)
Fixpoint weighted_sum (scores : gmap string Q) (items : list (string * Q))
    (acc : Q) : result Q :=
  match items with
  | [] => Ok acc
  | (param, weight) :: items' =>
      v ← dict_get scores param;
      weighted_sum scores items' (acc + v * weight)%Q
  end.

Definition calculate_ats_score (t : text) : result Q :=
  kd ← calculate_keyword_density t;
  av ← count_action_verbs t;
  qr ← check_quantifiable_results t;
  ci ← check_contact_info t;
  let scores : gmap string Q :=
    list_to_map
      [ ("keyword_density", kd); ("action_verbs", av);
        ("quantifiable_results", qr); ("structure", evaluate_structure t);
        ("contact_info", ci); ("length", check_length t) ] in
  total ← weighted_sum scores ATS_PARAMETERS 0;
  mret (py_min (total * 100) 100).

Definition too_short_line : string :=
  "📏 Resume is too short - aim for 400-800 words.".
Definition too_long_line : string :=
  "📏 Resume is too long - keep under 800 words.".

Definition generate_feedback (score : Q) (t : text) : result (list string) :=
  let feedback :=
    if Qltb score 60 then
      ["Your resume needs significant optimization to pass ATS screening."]
    else if Qltb score 80 then
      ["Your resume is decent but could be improved for better ATS performance."]
    else
      ["Excellent! Your resume is well-optimized for ATS systems."] in
  kd ← calculate_keyword_density t;
  let feedback :=
    if Qltb kd 0.5
    then feedback ++ ["🔍 Increase keyword density with more relevant skills."]
    else feedback in
  av ← count_action_verbs t;
  let feedback :=
    if Qltb av 0.5
    then feedback ++ ["💪 Add more action verbs like 'achieved', 'managed', 'developed'."]
    else feedback in
  qr ← check_quantifiable_results t;
  let feedback :=
    if Qltb qr 0.5
    then feedback ++ ["📊 Include quantifiable achievements (e.g., 'increased sales by 30%')."]
    else feedback in
  let feedback :=
    if Qltb (evaluate_structure t) 0.7
    then feedback ++ ["📑 Improve structure with clear section headings."]
    else feedback in
  ci ← check_contact_info t;
  let feedback :=
    if Qltb ci 1
    then feedback ++ ["📱 Ensure all contact info (email, phone, LinkedIn) is included."]
    else feedback in
  let word_count := word_count t in
  let feedback :=
    if word_count <? 400 then feedback ++ [too_short_line]
    else if 800 <? word_count then feedback ++ [too_long_line]
    else feedback in
  mret feedback.

End Ats.

(** ** Job match functions *)

(** [\b([A-Z][A-Z]+(?:\s+[A-Z][A-Z]+){1,3})\b]; its one group spans the
    whole match, so [findall] lists the matches themselves. *)
Definition name_pattern : regex :=
  seq_of
    [ Bnd; capital; plus capital;
      Rep (seq_of [plus space; capital; plus capital]) 1 (Some 3);
      Bnd ].

Definition blacklist : gset text :=
  list_to_set
    (map str ["RESUME"; "SUMMARY"; "SKILLS"; "PROJECTS"; "EDUCATION";
              "EXPERIENCE"; "CERTIFICATIONS"]).

Definition not_blacklisted (m : text) : bool :=
  forallb (fun word => bool_decide (word ∉ blacklist)) (py_split m).

Definition has_digit (m : text) : bool :=
  found (re_search false digit m).

Fixpoint first_name (matches : list text) : text :=
  match matches with
  | [] => str "Not Found"
  | m :: matches' =>
      if not_blacklisted m
      then if negb (has_digit m) then py_title m else first_name matches'
      else first_name matches'
  end.

Definition extract_name (t : text) : text :=
  first_name (re_findall false name_pattern t).

(** [set(text.lower().split())] *)
Definition token_set (t : text) : gset text :=
  list_to_set (py_split (py_lower t)).

Definition set_len (X : gset text) : Q := inject_Z (Z.of_nat (size X)).

Definition calculate_match_score (resume_text job_desc_text : text)
    : result Q :=
  let resume_words := token_set resume_text in
  let job_desc_words := token_set job_desc_text in
  let common_words := resume_words ∩ job_desc_words in
  ratio ← float_div (set_len common_words) (set_len job_desc_words);
  let match_percentage := float_mul ratio 100 in
  mret (py_min (py_round2 match_percentage) 100).

(** ** Vocabulary of the statements *)

(** A call returns a number of the unit interval. *)
Definition in_unit_interval (r : result Q) : Prop :=
  exists q, r = Ok q /\ (0 <= q <= 1)%Q.

(** A call returns a number equal to [v]. *)
Definition returns (r : result Q) (v : Q) : Prop :=
  exists q, r = Ok q /\ (q == v)%Q.

(** A text of [n] one-letter words. *)
Definition words_text (n : nat) : text := concat (repeat (str "w ") n).

(** The token set as the specification words it: the whitespace-separated
    words of the text in their original case. *)
Definition original_case_tokens (t : text) : gset text :=
  list_to_set (py_split t).

(** The words of a text, each in lower case. *)
Definition lowered_words (t : text) : gset text :=
  list_to_set (map py_lower (py_split t)).

(** The score of two token sets: the share of the job-description tokens
    that the resume has, as a percentage with two decimals. *)
Definition overlap_score (resume_words job_desc_words : gset text)
    : result Q :=
  let common_words := resume_words ∩ job_desc_words in
  ratio ← float_div (set_len common_words) (set_len job_desc_words);
  mret (py_min (py_round2 (float_mul ratio 100)) 100).

(** The match scorer over the original-case token sets. *)
Definition match_score_original_case (resume_text job_desc_text : text)
    : result Q :=
  overlap_score (original_case_tokens resume_text)
    (original_case_tokens job_desc_text).

(** The float that the match scorer returns when [c] of the [n] tokens of
    the job description are shared. *)
Definition score_of_sizes (c n : nat) : Q :=
  py_round2
    (float_mul (binary64 (inject_Z (Z.of_nat c) / inject_Z (Z.of_nat n))) 100).

(** A text of [n] distinct two-letter words, "aa", "ab", ... ([n] at most
    26 * 26). *)
Definition distinct_words (n : nat) : text :=
  flat_map
    (fun k => [ascii_of_nat (97 + k / 26); ascii_of_nat (97 + k mod 26);
               " "%char])
    (seq 0 n).

(** The match score as the specification words it:
    [clamp(100 * |resume ∩ jobdesc| / |jobdesc|, max=100)]. *)
Definition clamped_overlap (resume_text job_desc_text : text) : Q :=
  let c := set_len (token_set resume_text ∩ token_set job_desc_text) in
  let n := set_len (token_set job_desc_text) in
  py_min (100 * c / n) 100.










(** Every class of [r] only admits characters with property [P]. *)
Fixpoint classes_within (ic : bool) (P : ascii -> Prop) (r : regex) : Prop :=
  match r with
  | Chars items => forall c, class_match ic items c = true -> P c
  | Cat r1 r2 | Alt r1 r2 => classes_within ic P r1 /\ classes_within ic P r2
  | Rep r' _ _ => classes_within ic P r'
  | Eps | Bnd => True
  end.

(** The strings that [r] can consume, word boundaries left aside. *)
Fixpoint lang (ic : bool) (r : regex) (w : text) : Prop :=
  match r with
  | Eps | Bnd => w = []
  | Chars items => exists c, w = [c] /\ class_match ic items c = true
  | Cat r1 r2 => exists w1 w2, w = w1 ++ w2 /\ lang ic r1 w1 /\ lang ic r2 w2
  | Alt r1 r2 => lang ic r1 w \/ lang ic r2 w
  | Rep r' lo hi =>
      exists ws, w = concat ws /\ Forall (lang ic r') ws
        /\ (lo <= length ws)%nat
        /\ match hi with Some h => (length ws <= h)%nat | None => True end
  end.

Definition capital_or_space (c : ascii) : bool :=
  in_range 65 90 c || py_isspace c.

(** A name word of the code: at least two letters, all of them A-Z; and
    a name candidate: two to four such words. *)
Definition caps_word (w : text) : bool :=
  (2 <=? length w) && forallb (in_range 65 90) w.

Definition name_candidate (m : text) : bool :=
  let ws := py_split m in
  (2 <=? length ws) && (length ws <=? 4) && forallb caps_word ws.

(** An all-caps word, and a run of 2 to 4 of them without a blacklisted
    word, as the specification words the name candidates. *)
Definition all_caps (w : text) : bool :=
  match w with
  | [] => false
  | _ => forallb (in_range 65 90) w
  end.

Definition valid_candidate (ws : list text) : bool :=
  (2 <=? length ws) && (length ws <=? 4)
  && forallb all_caps ws
  && forallb (fun w => bool_decide (w ∉ blacklist)) ws.

(** [ws] are consecutive words of the word list [words]. *)
Fixpoint consecutive_words (ws : list text) (words : list text) : bool :=
  bool_decide (take (length ws) words = ws)
  || match words with
     | [] => false
     | _ :: words' => consecutive_words ws words'
     end.

(** The character before position [length pre] of [pre ++ s], when
    [prev] is the character before [pre]. *)
Definition last_before (prev : option ascii) (pre : text) : option ascii :=
  match last pre with
  | Some c => Some c
  | None => prev
  end.

(** [w] stands at the cursor as a whole word. *)
Definition word_at (w : text) (prev : option ascii) (s : text) : bool :=
  starts_with w s && negb (is_word_opt prev)
  && negb (is_word_opt (head (drop (length w) s))).

Fixpoint has_word_from (w : text) (prev : option ascii) (s : text) : bool :=
  word_at w prev s
  || match s with
     | [] => false
     | c :: s' => has_word_from w (Some c) s'
     end.

(** The text has the heading [h] as a whole word. *)
Definition has_heading (h : string) (t : text) : bool :=
  has_word_from (str h) None t.

(** The end-to-end fixture of the specification: 500 words, an email
    address, the quantified bullet and an "Experience" heading. *)
Definition end_to_end_fixture (t : text) : Prop :=
  word_count t = 500%nat
  /\ found (re_search false email_pattern t) = true
  /\ py_contains (str "increased sales by 30%") t = true
  /\ has_heading "Experience" t = true.

(** One such text: the heading, an address, the bullet and 492 filler
    words. *)
Definition fixture_text : text :=
  str "Experience a@b.co increased sales by 30% "
    ++ concat (repeat (str "x ") 492).

(** ** Uploads and text extraction *)

(** [app.config['ALLOWED_EXTENSIONS']] *)
Definition ALLOWED_EXTENSIONS : gset text := {[ str "pdf"; str "docx" ]}.

(** The split of [s] at its last [sep]: what is before it and what is
    after it, if [sep] occurs. *)
Fixpoint split_last (sep : ascii) (s : text) : option (text * text) :=
  match s with
  | [] => None
  | c :: s' =>
      match split_last sep s' with
      | Some (a, b) => Some (c :: a, b)
      | None => if bool_decide (c = sep) then Some ([], s') else None
      end
  end.

(** [s.rsplit(sep, 1)] *)
Definition rsplit1 (sep : ascii) (s : text) : list text :=
  match split_last sep s with
  | Some (a, b) => [a; b]
  | None => [s]
  end.

(** [s.endswith(suffix)] *)
Definition py_endswith (suffix s : text) : bool :=
  starts_with (rev suffix) (rev s).

(** [l[1]] *)
Definition second (l : list text) : result text :=
  match l !! 1%nat with
  | Some x => Ok x
  | None => Raise IndexError
  end.

(** A call of [allowed_file]: [and] takes the index only when the name has
    a dot. *)
Definition allowed_file_call (filename : text) : result bool :=
  if py_contains (str ".") filename
  then
    ext ← second (rsplit1 "." filename);
    mret (bool_decide (py_lower ext ∈ ALLOWED_EXTENSIONS))
  else mret false.

(** [allowed_file] as the test of the routes: the value of the call. *)
Definition allowed_file (filename : text) : bool :=
  py_contains (str ".") filename
  && match rsplit1 "." filename !! 1%nat with
     | Some ext => bool_decide (py_lower ext ∈ ALLOWED_EXTENSIONS)
     | None => false
     end.

(** An uploaded file: its name and its bytes. *)
Record upload := { filename : text; content : text }.

Section Extraction.

(** The document libraries, which are not part of the repository: the
    page texts of a PDF and the text of a DOCX file, or [None] when the
    library raises. *)
Variable pdf_pages : text -> option (list text).
Variable docx_process : text -> option text.

(** [extract_text]: every exception is caught and gives the empty text
    (the message printed to the console is not modelled). *)
Definition extract_text (file : upload) : text :=
  if py_endswith (str ".pdf") (filename file) then
    match pdf_pages (content file) with
    | Some pages => concat pages
    | None => []
    end
  else if py_endswith (str ".docx") (filename file) then
    match docx_process (content file) with
    | Some t => t
    | None => []
    end
  else [].

End Extraction.

(** ** Contact extraction *)

(** [(\+?\d{10,13})] *)
Definition phone_number_pattern : regex :=
  seq_of [opt (Lit "+"); Rep digit 10 (Some 13)].

Definition extract_email (t : text) : text :=
  match re_search false email_pattern t with
  | Some m => m
  | None => str "Not Found"
  end.

Definition extract_phone (t : text) : text :=
  match re_search false phone_number_pattern t with
  | Some m => m
  | None => str "Not Found"
  end.

(** [a or b] on strings: [a] unless it is empty. *)
Definition py_or (a b : text) : text :=
  match a with
  | [] => b
  | _ => a
  end.

(** ** Match feedback *)

Section MatchFeedback.

(** The text of a number inside an f-string. *)
Variable format_number : Q -> string.

Definition generate_match_feedback (score : Q) : string :=
  let feedback :=
    ("Your resume matches " ++ format_number score
       ++ "% of the job description keywords. ")%string in
  if Qltb 70 score then (feedback ++ "Excellent match!")%string
  else if Qltb 40 score then
    (feedback ++ "Good match but could be improved.")%string
  else (feedback ++ "Low match. Consider tailoring your resume.")%string.

End MatchFeedback.

(** ** The database *)

(** The SQLite file is modelled by the contents of its three tables.  The
    statements the code runs are taken to succeed: the failures of the
    database itself (a missing file or table, a locked database) are
    outside this model. *)

Record resume_row := {
  resume_filename : text;
  resume_ats_score : Q;
  resume_upload_date : text;
  resume_contact_info : text
}.

Record match_row := {
  match_resume_filename : text;
  match_jd_filename : text;
  match_match_score : Q;
  match_analysis_date : text
}.

(** A row of [app_analytics]; the four counters default to 0. *)
Record analytics_row := {
  resumes_uploaded : Z;
  jds_uploaded : Z;
  ats_checks : Z;
  match_checks : Z
}.

(** The tables [resumes] and [job_matches] in insertion order, which is
    the order of their [AUTOINCREMENT] ids, and [app_analytics] by id. *)
Record database := {
  resumes : list resume_row;
  job_matches : list match_row;
  app_analytics : gmap Z analytics_row
}.

(** The database after [init_db] on a new file: three empty tables. *)
Definition init_db : database :=
  {| resumes := []; job_matches := []; app_analytics := ∅ |}.

(** The counter columns that the routes pass to [update_analytics]. *)
Inductive counter :=
| ResumesUploaded | JdsUploaded | AtsChecks | MatchChecks.

(** [SET field = field + 1] on one row *)
Definition bump (field : counter) (row : analytics_row) : analytics_row :=
  match field with
  | ResumesUploaded =>
      {| resumes_uploaded := resumes_uploaded row + 1;
         jds_uploaded := jds_uploaded row;
         ats_checks := ats_checks row;
         match_checks := match_checks row |}
  | JdsUploaded =>
      {| resumes_uploaded := resumes_uploaded row;
         jds_uploaded := jds_uploaded row + 1;
         ats_checks := ats_checks row;
         match_checks := match_checks row |}
  | AtsChecks =>
      {| resumes_uploaded := resumes_uploaded row;
         jds_uploaded := jds_uploaded row;
         ats_checks := ats_checks row + 1;
         match_checks := match_checks row |}
  | MatchChecks =>
      {| resumes_uploaded := resumes_uploaded row;
         jds_uploaded := jds_uploaded row;
         ats_checks := ats_checks row;
         match_checks := match_checks row + 1 |}
  end.

(** [update_analytics]: [UPDATE app_analytics SET field = field + 1
    WHERE id = 1]. *)
Definition update_analytics (field : counter) (db : database) : database :=
  {| resumes := resumes db;
     job_matches := job_matches db;
     app_analytics := alter (bump field) 1%Z (app_analytics db) |}.

Definition insert_resume (row : resume_row) (db : database) : database :=
  {| resumes := resumes db ++ [row];
     job_matches := job_matches db;
     app_analytics := app_analytics db |}.

Definition insert_job_match (row : match_row) (db : database) : database :=
  {| resumes := resumes db;
     job_matches := job_matches db ++ [row];
     app_analytics := app_analytics db |}.

(** ** The upload routes *)

Inductive http_method := GET | POST.

Record request := {
  method : http_method;
  url : text;
  files : gmap string upload
}.

(** A value handed to a template. *)
Inductive value :=
| VNumber (q : Q)
| VText (t : text)
| VMessage (s : string)
| VLines (l : list string).

Inductive response :=
| Redirect (location : text)
| Template (name : string) (context : list (string * value))
| Plain (body : string) (status : nat).

(** What a request leaves behind: the response, the messages flashed and
    the database. *)
Record reply := {
  resp : response;
  flashed : list (string * string);
  store : database
}.

(** [round(x, 1)] on a float, as [round(x, 2)]. *)
Definition py_round1 (x : Q) : Q :=
  binary64 (inject_Z (round_half_even (x * 10)) / 10).

Section Routes.

Variable stop_list : list text.
Variable pdf_pages : text -> option (list text).
Variable docx_process : text -> option text.
Variable format_number : Q -> string.

(** [str(e)] *)
Variable exn_str : exn -> string.

(** [datetime.now().strftime('%Y-%m-%d %H:%M:%S')] is the argument [now]
    of each route. *)

(** In the three routes [if file and allowed_file(file.filename)] comes
    after the test that the file name is not empty, and a file object with
    a name is true: the condition is [allowed_file] alone. *)

Definition ats_checker (req : request) (now : text) (db : database)
    : reply :=
  match method req with
  | POST =>
      match files req !! "resume"%string with
      | None => {| resp := Redirect (url req); flashed := []; store := db |}
      | Some file =>
          if bool_decide (filename file = [])
          then {| resp := Redirect (url req); flashed := []; store := db |}
          else if allowed_file (filename file) then
            let t := extract_text pdf_pages docx_process file in
            match
              score ← calculate_ats_score stop_list t;
              feedback ← generate_feedback stop_list score t;
              mret (score, feedback)
            with
            | Ok (score, feedback) =>
                let db :=
                  insert_resume
                    {| resume_filename := filename file;
                       resume_ats_score := score;
                       resume_upload_date := now;
                       resume_contact_info :=
                         py_or (extract_email t) (extract_phone t) |} db in
                let db := update_analytics AtsChecks db in
                {| resp :=
                     Template "ats_results.html"
                       [ ("score", VNumber (py_round1 score));
                         ("feedback", VLines feedback);
                         ("filename", VText (filename file)) ];
                   flashed := []; store := db |}
            | Raise e =>
                {| resp :=
                     Plain ("Error processing file: " ++ exn_str e)%string 500;
                   flashed := []; store := db |}
            end
          else
            {| resp :=
                 Plain "Invalid file format. Please upload .pdf or .docx files only." 200;
               flashed := []; store := db |}
      end
  | GET =>
      {| resp := Template "ats_checker.html" []; flashed := []; store := db |}
  end.

Definition compatibility_test (req : request) (now : text) (db : database)
    : reply :=
  match method req with
  | POST =>
      match files req !! "resume"%string,
            files req !! "jobdescription"%string with
      | Some resume_file, Some job_desc_file =>
          if bool_decide (filename resume_file = [])
             || bool_decide (filename job_desc_file = [])
          then {| resp := Redirect (url req); flashed := []; store := db |}
          else if allowed_file (filename resume_file)
                  && allowed_file (filename job_desc_file) then
            let resume_text :=
              extract_text pdf_pages docx_process resume_file in
            let job_desc_text :=
              extract_text pdf_pages docx_process job_desc_file in
            match calculate_match_score resume_text job_desc_text with
            | Ok score =>
                let feedback := generate_match_feedback format_number score in
                let db :=
                  insert_job_match
                    {| match_resume_filename := filename resume_file;
                       match_jd_filename := filename job_desc_file;
                       match_match_score := score;
                       match_analysis_date := now |} db in
                let db := update_analytics MatchChecks db in
                {| resp :=
                     Template "compatibility_results.html"
                       [ ("score", VNumber (py_round1 score));
                         ("feedback", VMessage feedback);
                         ("resume_filename", VText (filename resume_file));
                         ("job_desc_filename",
                          VText (filename job_desc_file)) ];
                   flashed := []; store := db |}
            | Raise e =>
                {| resp :=
                     Plain ("Error processing files: " ++ exn_str e)%string 500;
                   flashed := []; store := db |}
            end
          else
            {| resp :=
                 Plain "Invalid file format. Please upload .pdf or .docx files only." 200;
               flashed := []; store := db |}
      | _, _ => {| resp := Redirect (url req); flashed := []; store := db |}
      end
  | GET =>
      {| resp := Template "compatibility_test.html" [];
         flashed := []; store := db |}
  end.

Definition resume_ranking (req : request) (now : text) (db : database)
    : reply :=
  match method req with
  | POST =>
      match files req !! "resume"%string with
      | None =>
          {| resp := Redirect (url req);
             flashed := [("No file selected", "error")]; store := db |}
      | Some file =>
          if bool_decide (filename file = [])
          then {| resp := Redirect (url req);
                  flashed := [("No file selected", "error")]; store := db |}
          else if allowed_file (filename file) then
            let t := extract_text pdf_pages docx_process file in
            match calculate_ats_score stop_list t with
            | Ok score =>
                let db :=
                  insert_resume
                    {| resume_filename := filename file;
                       resume_ats_score := score;
                       resume_upload_date := now;
                       resume_contact_info :=
                         py_or (extract_email t) (extract_phone t) |} db in
                let db := update_analytics ResumesUploaded db in
                {| resp :=
                     Template "upload_success.html"
                       [ ("score", VNumber (py_round1 score));
                         ("filename", VText (filename file)) ];
                   flashed := []; store := db |}
            | Raise e =>
                {| resp := Redirect (url req);
                   flashed :=
                     [(("Error processing file: " ++ exn_str e)%string,
                       "error")];
                   store := db |}
            end
          else
            {| resp := Redirect (url req);
               flashed :=
                 [("Invalid file format. Please upload PDF or DOCX only.",
                   "error")];
               store := db |}
      end
  | GET =>
      {| resp := Template "resume_ranking.html" [];
         flashed := []; store := db |}
  end.

(** The three upload routes. *)
Inductive route := AtsChecker | CompatibilityTest | ResumeRanking.

Definition handle (r : route) (req : request) (now : text) (db : database)
    : reply :=
  match r with
  | AtsChecker => ats_checker req now db
  | CompatibilityTest => compatibility_test req now db
  | ResumeRanking => resume_ranking req now db
  end.

(** A series of requests, each with its route and its time, served one
    after the other. *)
Fixpoint serve (reqs : list (route * request * text)) (db : database)
    : database :=
  match reqs with
  | [] => db
  | (r, req, now) :: reqs' => serve reqs' (store (handle r req now db))
  end.

End Routes.

(** ** Vocabulary of the further statements *)

(** The sum of the four counters of a row of [app_analytics]. *)
Definition counter_total (row : analytics_row) : Z :=
  (resumes_uploaded row + jds_uploaded row + ats_checks row
   + match_checks row)%Z.

(** No counter of [row'] is below the one of [row]. *)
Definition counters_le (row row' : analytics_row) : Prop :=
  (resumes_uploaded row <= resumes_uploaded row')%Z
  /\ (jds_uploaded row <= jds_uploaded row')%Z
  /\ (ats_checks row <= ats_checks row')%Z
  /\ (match_checks row <= match_checks row')%Z.

(** A row before and after [n] requests: it is neither added nor deleted,
    its counters do not decrease, and their sum grows by [n] at most. *)
Definition grown_by (n : Z) (before after : option analytics_row) : Prop :=
  match before, after with
  | None, None => True
  | Some row, Some row' =>
      counters_le row row' /\ (counter_total row' <= counter_total row + n)%Z
  | _, _ => False
  end.

(** A character of the two parts of an address: [\w], a dot or a hyphen. *)
Definition address_char (c : ascii) : bool :=
  is_word c || bool_decide (c = "."%char) || bool_decide (c = "-"%char).

(** [s.upper()], on the characters whose capital is in the block. *)
Definition py_upper (s : text) : text := map upper_char s.

(** A word in title case: a letter A-Z and then one or more letters a-z. *)
Definition titled_word (w : text) : bool :=
  match w with
  | [] => false
  | c :: w' =>
      in_range 65 90 c && (1 <=? length w') && forallb (in_range 97 122) w'
  end.

(** Two to four words in title case. *)
Definition titled_name (n : text) : bool :=
  let ws := py_split n in
  (2 <=? length ws) && (length ws <=? 4) && forallb titled_word ws.

(** The title case of an all-caps word. *)
Definition title_word (w : text) : text :=
  match w with
  | [] => []
  | c :: w' => c :: py_lower w'
  end.

(** Stand-ins for the document libraries and the interpreter in the
    examples: a PDF of one page that holds the bytes, a DOCX file whose
    text is its bytes, a number shown by its numerator and denominator,
    and the message of each exception. *)
Definition sample_pdf_pages (body : text) : option (list text) := Some [body].
Definition sample_docx_process (body : text) : option text := Some body.
Definition sample_format (q : Q) : string :=
  if Z.eqb (Qnum q) 0 then "0" else "a number".
Definition sample_exn_str (e : exn) : string :=
  match e with
  | ZeroDivisionError => "division by zero"
  | KeyError => "key"
  | IndexError => "list index out of range"
  end.

(** A POST of one file under the field "resume", and of two files under
    "resume" and "jobdescription". *)
Definition post_resume (name body : text) : request :=
  {| method := POST; url := str "/upload";
     files := {[ "resume"%string := {| filename := name; content := body |} ]} |}.

Definition post_pair (name body jd_name jd_body : text) : request :=
  {| method := POST; url := str "/compatibility-test";
     files :=
       {[ "resume"%string := {| filename := name; content := body |};
          "jobdescription"%string :=
            {| filename := jd_name; content := jd_body |} ]} |}.


(** * Properties *)

(** ** Numbers *)

Lemma round_half_even_near (y : Q) :
  (inject_Z (round_half_even y) - (1 # 2) <= y /\ y <= inject_Z (round_half_even y) + (1 # 2))%Q.
Proof.
  destruct y as [n d]. unfold round_half_even. simpl Qnum. simpl Qden.
  pose proof (Z.div_mod n (Zpos d) ltac:(lia)) as Hdm.
  pose proof (Z.mod_pos_bound n (Zpos d) ltac:(lia)) as Hb.
  set (q := (n / Zpos d)%Z) in *. set (r := (n mod Zpos d)%Z) in *.
  destruct (Z.compare_spec (2 * r) (Zpos d)) as [He|Hl|Hg];
    [destruct (Z.even q)| |]; unfold Qle, Qminus, Qplus, Qopp, inject_Z; simpl; split; nia.
Qed.

(** *** binary64 *)

Lemma two_pos e : (0 < 2 ^ e)%Q.
Proof. apply Qpower_0_lt. reflexivity. Qed.

Lemma two_succ e : (2 ^ (e + 1) == 2 * 2 ^ e)%Q.
Proof. rewrite Qpower_plus by discriminate. change (2 ^ 1)%Q with 2%Q. ring. Qed.

Lemma two_nat (k : Z) : (0 <= k)%Z -> (2 ^ k == inject_Z (2 ^ k))%Q.
Proof. intros H. rewrite Zpower_Qpower by exact H. reflexivity. Qed.

(** [exponent x] is the binade of a positive [x]. *)
Lemma exponent_spec (x : Q) :
  (0 < x)%Q -> (2 ^ exponent x <= x /\ x < 2 ^ (exponent x + 1))%Q.
Proof.
  intros Hx. destruct x as [n d].
  assert (Hn : (0 < n)%Z) by (unfold Qlt in Hx; simpl in Hx; lia).
  unfold exponent. simpl Qnum. simpl Qden.
  set (a := Z.log2 n). set (b := Z.log2 (Zpos d)).
  destruct (Z.log2_spec n Hn) as [Ha1 Ha2]. fold a in Ha1, Ha2.
  destruct (Z.log2_spec (Zpos d) ltac:(lia)) as [Hb1 Hb2]. fold b in Hb1, Hb2.
  assert (Ha0 : (0 <= a)%Z) by apply Z.log2_nonneg.
  assert (Hb0 : (0 <= b)%Z) by apply Z.log2_nonneg.
  assert (Hn1 : (2 ^ a <= inject_Z n)%Q).
  { rewrite two_nat by exact Ha0. rewrite <- Zle_Qle. exact Ha1. }
  assert (Hn2 : (inject_Z n < 2 ^ (a + 1))%Q).
  { rewrite two_nat by lia. rewrite <- Zlt_Qlt. replace (a + 1)%Z with (Z.succ a) by lia. exact Ha2. }
  assert (Hd1 : (2 ^ b <= inject_Z (Zpos d))%Q).
  { rewrite two_nat by exact Hb0. rewrite <- Zle_Qle. exact Hb1. }
  assert (Hd2 : (inject_Z (Zpos d) < 2 ^ (b + 1))%Q).
  { rewrite two_nat by lia. rewrite <- Zlt_Qlt. replace (b + 1)%Z with (Z.succ b) by lia. exact Hb2. }
  assert (Ex : (n # d == inject_Z n / inject_Z (Zpos d))%Q) by apply Qmake_Qdiv.
  assert (Hdp : (0 < inject_Z (Zpos d))%Q) by reflexivity.
  pose proof (two_pos a) as Pa. pose proof (two_pos b) as Pb.
  pose proof (two_pos (a - b)) as Pab.
  assert (Eab : (2 ^ a == 2 ^ (a - b) * 2 ^ b)%Q).
  { rewrite <- Qpower_plus by discriminate. replace (a - b + b)%Z with a by lia. reflexivity. }
  (* x < 2^(a-b+1) and 2^(a-b-1) < x *)
  assert (Hup : (n # d < 2 ^ (a - b + 1))%Q).
  { rewrite Ex. apply Qlt_shift_div_r; [exact Hdp|].
    rewrite two_succ in Hn2 |- *. nra. }
  assert (Hlo : (2 ^ (a - b - 1) <= n # d)%Q).
  { rewrite Ex. apply Qle_shift_div_l; [exact Hdp|].
    assert (E1 : (2 ^ (a - b) == 2 * 2 ^ (a - b - 1))%Q).
    { rewrite <- two_succ. replace (a - b - 1 + 1)%Z with (a - b)%Z by lia. reflexivity. }
    pose proof (two_pos (a - b - 1)) as P1.
    rewrite two_succ in Hd2. nra. }
  destruct (Qle_bool (2 ^ (a - b)) (n # d)) eqn:E.
  - apply Qle_bool_iff in E. split; assumption.
  - assert (Hlt : (n # d < 2 ^ (a - b))%Q).
    { apply Qnot_le_lt. intros H. apply Qle_bool_iff in H. congruence. }
    split; [exact Hlo|]. replace (a - b - 1 + 1)%Z with (a - b)%Z by lia. exact Hlt.
Qed.

Lemma exponent_unique (x : Q) (e : Z) :
  (2 ^ e <= x)%Q -> (x < 2 ^ (e + 1))%Q -> exponent x = e.
Proof.
  intros H1 H2.
  assert (Hx : (0 < x)%Q) by (pose proof (two_pos e); lra).
  destruct (exponent_spec x Hx) as [S1 S2].
  assert (A : (2 ^ e < 2 ^ (exponent x + 1))%Q) by lra.
  assert (B : (2 ^ exponent x < 2 ^ (e + 1))%Q) by lra.
  apply Qpower_lt_compat_l_inv in A; [|reflexivity].
  apply Qpower_lt_compat_l_inv in B; [|reflexivity]. lia.
Qed.

Lemma exponent_eq (x y : Q) : (0 < x)%Q -> (x == y)%Q -> exponent x = exponent y.
Proof.
  intros Hx E. symmetry. destruct (exponent_spec x Hx) as [S1 S2].
  apply exponent_unique; rewrite <- E; assumption.
Qed.

Lemma exponent_mono (x y : Q) :
  (0 < x)%Q -> (x <= y)%Q -> (exponent x <= exponent y)%Z.
Proof.
  intros Hx H. destruct (exponent_spec x Hx) as [S1 _].
  destruct (exponent_spec y ltac:(lra)) as [_ T2].
  assert (A : (2 ^ exponent x < 2 ^ (exponent y + 1))%Q) by lra.
  apply Qpower_lt_compat_l_inv in A; [|reflexivity]. lia.
Qed.

Lemma round_half_even_tie (x : Q) :
  (x == inject_Z (round_half_even x) - (1 # 2)
   \/ x == inject_Z (round_half_even x) + (1 # 2))%Q ->
  Z.even (round_half_even x) = true.
Proof.
  destruct x as [n d]. unfold round_half_even. simpl Qnum. simpl Qden.
  pose proof (Z.div_mod n (Zpos d) ltac:(lia)) as Hdm.
  pose proof (Z.mod_pos_bound n (Zpos d) ltac:(lia)) as Hb.
  set (q := (n / Zpos d)%Z) in *. set (r := (n mod Zpos d)%Z) in *.
  destruct (Z.compare_spec (2 * r) (Zpos d)) as [He|Hl|Hg].
  - destruct (Z.even q) eqn:Eq; [intros _; exact Eq|].
    intros _. rewrite Z.even_add, Eq. reflexivity.
  - intros [H|H]; unfold Qeq, Qminus, Qplus, Qopp, inject_Z in H; simpl in H; nia.
  - intros [H|H]; unfold Qeq, Qminus, Qplus, Qopp, inject_Z in H; simpl in H; nia.
Qed.

Lemma round_half_even_mono (x y : Q) :
  (x <= y)%Q -> (round_half_even x <= round_half_even y)%Z.
Proof.
  intros Hxy.
  destruct (round_half_even_near x) as [Hx1 Hx2].
  destruct (round_half_even_near y) as [Hy1 Hy2].
  destruct (Z_le_gt_dec (round_half_even x) (round_half_even y)) as [H|H];
    [exact H|exfalso].
  assert (Hk : (inject_Z (round_half_even y) + 1 <= inject_Z (round_half_even x))%Q).
  { unfold Qle, Qplus, inject_Z; simpl. lia. }
  assert (Ex : (x == inject_Z (round_half_even x) - (1 # 2))%Q) by lra.
  assert (Ey : (y == inject_Z (round_half_even y) + (1 # 2))%Q) by lra.
  assert (Ek : (inject_Z (round_half_even x) == inject_Z (round_half_even y) + 1)%Q) by lra.
  pose proof (round_half_even_tie x (or_introl Ex)) as Px.
  pose proof (round_half_even_tie y (or_intror Ey)) as Py.
  assert (Ez : round_half_even x = (round_half_even y + 1)%Z)
    by (unfold Qeq, Qplus, inject_Z in Ek; simpl in Ek; lia).
  rewrite Ez, Z.even_add, Py in Px. discriminate Px.
Qed.

Lemma round_half_even_eq (x y : Q) :
  (x == y)%Q -> round_half_even x = round_half_even y.
Proof.
  intros H. apply Z.le_antisymm; apply round_half_even_mono; lra.
Qed.

Lemma round_half_even_inject (k : Z) : round_half_even (inject_Z k) = k.
Proof.
  unfold round_half_even, inject_Z. simpl Qnum. simpl Qden.
  rewrite Z.div_1_r, Z.mod_1_r. reflexivity.
Qed.

Lemma Qabs_pos_lt (x : Q) : ~ (x == 0)%Q -> (0 < Qabs x)%Q.
Proof.
  intros Hx. destruct (Qlt_le_dec x 0) as [H|H].
  - rewrite Qabs_neg by lra. lra.
  - rewrite Qabs_pos by exact H. destruct (Qle_lt_or_eq _ _ H) as [H'|H']; [exact H'|].
    exfalso. apply Hx. symmetry. exact H'.
Qed.

Lemma last_place_eq (x y : Q) :
  ~ (x == 0)%Q -> (x == y)%Q -> last_place x = last_place y.
Proof.
  intros Hx E. unfold last_place. f_equal. f_equal.
  apply exponent_eq; [apply Qabs_pos_lt, Hx|rewrite E; reflexivity].
Qed.

(** The float nearest to [x] does not depend on how [x] is written. *)
Lemma binary64_eq (x y : Q) : (x == y)%Q -> binary64 x = binary64 y.
Proof.
  intros E. unfold binary64.
  destruct (Qeq_bool x 0) eqn:Ex.
  - apply Qeq_bool_eq in Ex. rewrite E in Ex.
    apply Qeq_eq_bool in Ex. rewrite Ex. reflexivity.
  - assert (Hx : ~ (x == 0)%Q) by (intros H; apply Qeq_eq_bool in H; congruence).
    assert (Ey : Qeq_bool y 0 = false).
    { destruct (Qeq_bool y 0) eqn:Ey; [|reflexivity].
      apply Qeq_bool_eq in Ey. rewrite <- E in Ey. contradiction. }
    rewrite Ey. rewrite <- (last_place_eq x y Hx E).
    apply Qred_complete.
    rewrite (round_half_even_eq (x / 2 ^ last_place x) (y / 2 ^ last_place x));
      [reflexivity|]. apply Qdiv_comp; [exact E|reflexivity].
Qed.

Lemma binary64_0 : binary64 0 = 0%Q.
Proof. reflexivity. Qed.

(** The float nearest to a positive [x], by its significand. *)
Lemma binary64_pos (x : Q) :
  (0 < x)%Q ->
  (binary64 x
   == inject_Z (round_half_even (x / 2 ^ last_place x)) * 2 ^ last_place x)%Q.
Proof.
  intros Hx. unfold binary64.
  destruct (Qeq_bool x 0) eqn:Ex.
  - apply Qeq_bool_eq in Ex. lra.
  - apply Qred_correct.
Qed.

Lemma last_place_pos (x : Q) :
  (0 < x)%Q -> last_place x = Z.max (exponent x - 52) (-1074).
Proof.
  intros Hx. unfold last_place. f_equal. f_equal.
  apply exponent_eq; [rewrite Qabs_pos; lra|]. apply Qabs_pos. lra.
Qed.

Lemma scaled_pos (x : Q) e : (0 <= x)%Q -> (0 <= x / 2 ^ e)%Q.
Proof.
  intros Hx. apply Qle_shift_div_l; [apply two_pos|]. lra.
Qed.

Lemma round_half_even_nonneg (x : Q) : (0 <= x)%Q -> (0 <= round_half_even x)%Z.
Proof.
  intros H. rewrite <- (round_half_even_inject 0).
  apply round_half_even_mono. exact H.
Qed.

Lemma binary64_nonneg (x : Q) : (0 <= x)%Q -> (0 <= binary64 x)%Q.
Proof.
  intros Hx. destruct (Qle_lt_or_eq _ _ Hx) as [H|H].
  - rewrite (binary64_pos x H).
    apply Qmult_le_0_compat; [|apply Qlt_le_weak, two_pos].
    change 0%Q with (inject_Z 0). rewrite <- Zle_Qle.
    apply round_half_even_nonneg, scaled_pos, Hx.
  - rewrite <- (binary64_eq 0 x H). apply Qle_refl.
Qed.

Lemma two_le (a b : Z) : (a <= b)%Z -> (2 ^ a <= 2 ^ b)%Q.
Proof. intros H. apply Qpower_le_compat_l; [exact H|discriminate]. Qed.

Lemma two_split (a b : Z) : (2 ^ a == 2 ^ (a - b) * 2 ^ b)%Q.
Proof.
  rewrite <- Qpower_plus by discriminate.
  replace (a - b + b)%Z with a by lia. reflexivity.
Qed.

Lemma round_half_even_ge (k : Z) (x : Q) :
  (inject_Z k <= x)%Q -> (inject_Z k <= inject_Z (round_half_even x))%Q.
Proof.
  intros H. rewrite <- Zle_Qle. rewrite <- (round_half_even_inject k).
  apply round_half_even_mono, H.
Qed.

Lemma round_half_even_le (k : Z) (x : Q) :
  (x <= inject_Z k)%Q -> (inject_Z (round_half_even x) <= inject_Z k)%Q.
Proof.
  intros H. rewrite <- Zle_Qle. rewrite <- (round_half_even_inject k).
  apply round_half_even_mono, H.
Qed.

(** Rounding to the nearest float is monotone. *)
Lemma binary64_mono (x y : Q) :
  (0 <= x)%Q -> (x <= y)%Q -> (binary64 x <= binary64 y)%Q.
Proof.
  intros Hx Hxy. destruct (Qle_lt_or_eq _ _ Hx) as [Px|Ex].
  2:{ rewrite <- (binary64_eq 0 x Ex). apply binary64_nonneg. lra. }
  assert (Py : (0 < y)%Q) by lra.
  rewrite (binary64_pos x Px), (binary64_pos y Py).
  rewrite (last_place_pos x Px), (last_place_pos y Py).
  pose proof (exponent_mono x y Px Hxy) as He.
  destruct (exponent_spec x Px) as [_ X2].
  destruct (exponent_spec y Py) as [Y1 _].
  set (ex := exponent x) in *. set (ey := exponent y) in *.
  set (lx := Z.max (ex - 52) (-1074)). set (ly := Z.max (ey - 52) (-1074)).
  pose proof (two_pos lx) as Plx. pose proof (two_pos ly) as Ply.
  destruct (Z.eq_dec lx ly) as [El|Nl].
  - rewrite <- El. apply Qmult_le_compat_r; [|lra].
    rewrite <- Zle_Qle. apply round_half_even_mono.
    apply Qle_shift_div_l; [exact Plx|].
    unfold Qdiv. rewrite <- Qmult_assoc, (Qmult_comm (/ 2 ^ lx)), Qmult_inv_r by lra. lra.
  - assert (Hl : (lx < ly)%Z) by lia.
    assert (Ely : ly = (ey - 52)%Z) by lia.
    assert (Hex : (ex + 1 <= ey)%Z) by lia.
    set (k := (52 + ly - lx)%Z).
    assert (Hk : (0 <= k)%Z) by lia.
    apply Qle_trans with (2 ^ ey)%Q.
    + assert (U : (x / 2 ^ lx <= inject_Z (2 ^ k))%Q).
      { rewrite <- two_nat by exact Hk. apply Qle_shift_div_r; [exact Plx|].
        rewrite <- Qpower_plus by discriminate.
        replace (k + lx)%Z with ey by lia.
        pose proof (two_le (ex + 1) ey Hex). lra. }
      apply round_half_even_le in U. rewrite <- two_nat in U by exact Hk.
      rewrite (two_split ey lx). replace (ey - lx)%Z with k by lia.
      apply Qmult_le_compat_r; lra.
    + assert (L : (inject_Z (2 ^ 52) <= y / 2 ^ ly)%Q).
      { rewrite <- two_nat by lia. apply Qle_shift_div_l; [exact Ply|].
        rewrite <- Qpower_plus by discriminate.
        replace (52 + ly)%Z with ey by lia. exact Y1. }
      apply round_half_even_ge in L. rewrite <- two_nat in L by lia.
      rewrite (two_split ey ly) at 1. replace (ey - ly)%Z with 52%Z by lia.
      apply Qmult_le_compat_r; lra.
Qed.

Lemma binary64_bounds (x : Q) :
  (0 <= x <= 100)%Q -> (0 <= binary64 x <= 100)%Q.
Proof.
  intros [H0 H1]. split; [apply binary64_nonneg, H0|].
  apply Qle_trans with (binary64 100); [apply binary64_mono; assumption|].
  vm_compute. discriminate.
Qed.

Lemma binary64_unit (x : Q) :
  (0 <= x <= 1)%Q -> (0 <= binary64 x <= 1)%Q.
Proof.
  intros [H0 H1]. split; [apply binary64_nonneg, H0|].
  apply Qle_trans with (binary64 1); [apply binary64_mono; assumption|].
  vm_compute. discriminate.
Qed.

(** The rounding error of a float below [2^k] is at most half a unit in
    the last place of that binade. *)
Lemma binary64_near (x : Q) (k : Z) :
  (0 <= x)%Q -> (x < 2 ^ k)%Q -> (-1021 <= k)%Z ->
  (Qabs (binary64 x - x) <= 2 ^ (k - 54))%Q.
Proof.
  intros Hx Hk Hmin. pose proof (two_pos (k - 54)) as Pk.
  destruct (Qle_lt_or_eq _ _ Hx) as [Px|Ex].
  2:{ rewrite <- (binary64_eq 0 x Ex). rewrite binary64_0.
      apply Qabs_Qle_condition. split; lra. }
  rewrite (binary64_pos x Px), (last_place_pos x Px).
  destruct (exponent_spec x Px) as [X1 _].
  assert (He : (exponent x < k)%Z).
  { apply (Qpower_lt_compat_l_inv 2); [lra|reflexivity]. }
  set (l := Z.max (exponent x - 52) (-1074)).
  assert (Hl : (l <= k - 53)%Z) by lia.
  pose proof (two_pos l) as Pl.
  destruct (round_half_even_near (x / 2 ^ l)) as [N1 N2].
  set (m := inject_Z (round_half_even (x / 2 ^ l))) in *.
  assert (Ex : (x == x / 2 ^ l * 2 ^ l)%Q).
  { unfold Qdiv. rewrite <- Qmult_assoc, (Qmult_comm (/ 2 ^ l)), Qmult_inv_r by lra. ring. }
  set (s := (x / 2 ^ l)%Q) in *.
  assert (Hh : (2 ^ l * (1 # 2) <= 2 ^ (k - 54))%Q).
  { pose proof (two_le l (k - 53) Hl) as H.
    assert (E : (2 ^ (k - 53) == 2 * 2 ^ (k - 54))%Q).
    { rewrite <- two_succ. replace (k - 54 + 1)%Z with (k - 53)%Z by lia. reflexivity. }
    lra. }
  set (p := (2 ^ l)%Q) in *. set (b := (2 ^ (k - 54))%Q) in *.
  assert (Hd : (- (p * (1 # 2)) <= m * p - x <= p * (1 # 2))%Q).
  { rewrite Ex. split; nra. }
  apply Qabs_Qle_condition. split; lra.
Qed.

(** *** [round] *)

Lemma hundredths_bounds (x : Q) :
  (0 <= x <= 100)%Q ->
  (0 <= inject_Z (round_half_even (x * 100)) / 100 <= 100)%Q.
Proof.
  intros [H0 H100].
  assert (L : (inject_Z 0 <= x * 100)%Q) by (change (inject_Z 0) with 0%Q; lra).
  assert (U : (x * 100 <= inject_Z 10000)%Q)
    by (change (inject_Z 10000) with 10000%Q; lra).
  apply round_half_even_ge in L. apply round_half_even_le in U.
  change (inject_Z 0) with 0%Q in L. change (inject_Z 10000) with 10000%Q in U.
  unfold Qdiv. change (/ 100)%Q with (1 # 100)%Q. lra.
Qed.

Lemma py_round2_bounds x : (0 <= x <= 100 -> 0 <= py_round2 x <= 100)%Q.
Proof.
  intros H. unfold py_round2. apply binary64_bounds, hundredths_bounds, H.
Qed.

(** [round(x, 2)] is within half a hundredth of [x], up to the rounding
    of the decimal to a float. *)
Lemma py_round2_near x :
  (0 <= x <= 100)%Q -> (Qabs (py_round2 x - x) <= (1 # 200) + 2 ^ (-47))%Q.
Proof.
  intros H. unfold py_round2.
  pose proof (hundredths_bounds x H) as Hd.
  destruct (round_half_even_near (x * 100)) as [H1 H2].
  set (d := (inject_Z (round_half_even (x * 100)) / 100)%Q) in *.
  assert (Ed : (d * 100 == inject_Z (round_half_even (x * 100)))%Q).
  { unfold d, Qdiv. change (/ 100)%Q with (1 # 100)%Q. ring. }
  rewrite <- Ed in H1, H2.
  pose proof (binary64_near d 7 ltac:(lra)
                ltac:(change (2 ^ 7)%Q with 128%Q; lra) ltac:(lia)) as Hn.
  change (7 - 54)%Z with (-47)%Z in Hn.
  apply Qabs_Qle_condition in Hn. set (e := (2 ^ (-47))%Q) in *.
  apply Qabs_Qle_condition. split; lra.
Qed.

Lemma py_round2_mono (x y : Q) :
  (0 <= x)%Q -> (x <= y)%Q -> (py_round2 x <= py_round2 y)%Q.
Proof.
  intros H0 H. unfold py_round2.
  assert (L : (inject_Z 0 <= x * 100)%Q) by (change (inject_Z 0) with 0%Q; lra).
  apply round_half_even_ge in L. change (inject_Z 0) with 0%Q in L.
  assert (Hk : (round_half_even (x * 100) <= round_half_even (y * 100))%Z)
    by (apply round_half_even_mono; lra).
  rewrite Zle_Qle in Hk.
  apply binary64_mono; unfold Qdiv; change (/ 100)%Q with (1 # 100)%Q; lra.
Qed.

Lemma py_min_le a b : (a <= b)%Q -> py_min a b = a.
Proof.
  intros H. unfold py_min. destruct (b ?= a)%Q eqn:E; try reflexivity.
  apply Qlt_alt in E. lra.
Qed.

Lemma set_len_nonneg X : (0 <= set_len X)%Q.
Proof. unfold set_len, Qle; simpl. lia. Qed.

Lemma set_len_pos (X : gset text) : X ≠ ∅ -> (0 < set_len X)%Q.
Proof.
  intros H. unfold set_len, Qlt; simpl.
  assert (size X ≠ 0%nat) by (intros E; apply size_empty_inv in E; apply H; apply leibniz_equiv; exact E).
  lia.
Qed.

Lemma set_len_inter_le (X Y : gset text) : (set_len (X ∩ Y) <= set_len Y)%Q.
Proof.
  unfold set_len, Qle; simpl.
  assert (size (X ∩ Y) <= size Y)%nat by apply subseteq_size, intersection_subseteq_r.
  lia.
Qed.

Lemma py_div_ok a b : (0 < b)%Q -> py_div a b = Ok (a / b)%Q.
Proof.
  intros H. unfold py_div. destruct (Qeq_bool b 0) eqn:E; [|reflexivity].
  apply Qeq_bool_eq in E. lra.
Qed.

Lemma float_div_ok a b : (0 < b)%Q -> float_div a b = Ok (binary64 (a / b)).
Proof.
  intros H. unfold float_div. destruct (Qeq_bool b 0) eqn:E; [|reflexivity].
  apply Qeq_bool_eq in E. lra.
Qed.

(** ** The match scorer *)

Lemma isspace_lower c : py_isspace (lower_char c) = py_isspace c.
Proof. destruct c as [[] [] [] [] [] [] [] []]; reflexivity. Qed.

Lemma lower_char_idem c : lower_char (lower_char c) = lower_char c.
Proof. destruct c as [[] [] [] [] [] [] [] []]; reflexivity. Qed.

Lemma py_lower_idem s : py_lower (py_lower s) = py_lower s.
Proof.
  unfold py_lower. rewrite map_map. apply map_ext. intros c.
  apply lower_char_idem.
Qed.

Lemma rev_lower acc : rev (py_lower acc) = py_lower (rev acc).
Proof. unfold py_lower. symmetry. apply map_rev. Qed.

(** Lower-casing keeps the word boundaries of [split]. *)
Lemma split_acc_lower acc s :
  split_acc (py_lower acc) (py_lower s) = map py_lower (split_acc acc s).
Proof.
  revert acc. induction s as [|c s IH]; intros acc.
  - destruct acc as [|a acc]; [reflexivity|].
    change (split_acc (py_lower (a :: acc)) (py_lower []))
      with [rev (py_lower (a :: acc))].
    rewrite rev_lower. reflexivity.
  - change (py_lower (c :: s)) with (lower_char c :: py_lower s).
    cbn [split_acc]. rewrite isspace_lower. destruct (py_isspace c).
    + destruct acc as [|a acc].
      * apply (IH []).
      * change (py_lower (a :: acc)) with (lower_char a :: py_lower acc).
        cbv iota beta.
        change (lower_char a :: py_lower acc) with (py_lower (a :: acc)).
        rewrite rev_lower. exact (f_equal (cons _) (IH [])).
    + apply (IH (c :: acc)).
Qed.

Lemma py_split_lower s : py_split (py_lower s) = map py_lower (py_split s).
Proof. apply (split_acc_lower []). Qed.



(** With a job description that has a token, the division is defined, the
    rounded percentage is at most 100, and [min] returns it unchanged. *)
Lemma overlap_score_value (X Y : gset text) :
  Y ≠ ∅ -> overlap_score X Y = Ok (score_of_sizes (size (X ∩ Y)) (size Y)).
Proof.
  intros HY. unfold overlap_score, score_of_sizes, float_mul.
  rewrite (float_div_ok _ _ (set_len_pos _ HY)).
  cbn [mbind result_bind mret result_ret]. f_equal.
  apply py_min_le. fold (set_len (X ∩ Y)) (set_len Y).
  apply py_round2_bounds, binary64_bounds.
  pose proof (set_len_pos Y HY) as Hn.
  pose proof (set_len_inter_le X Y) as Hc.
  pose proof (set_len_nonneg (X ∩ Y)) as H0.
  assert (Hr : (0 <= set_len (X ∩ Y) / set_len Y <= 1)%Q).
  { split; [apply Qle_shift_div_l|apply Qle_shift_div_r]; lra. }
  apply binary64_unit in Hr. lra.
Qed.

Lemma match_score_value (resume_text job_desc_text : text) :
  token_set job_desc_text ≠ ∅ ->
  calculate_match_score resume_text job_desc_text
  = Ok (score_of_sizes
          (size (token_set resume_text ∩ token_set job_desc_text))
          (size (token_set job_desc_text))).
Proof. apply overlap_score_value. Qed.

Lemma token_set_lowered (t : text) : token_set t = lowered_words t.
Proof. unfold token_set, lowered_words. rewrite py_split_lower. reflexivity. Qed.

Lemma token_set_lower (t : text) : token_set (py_lower t) = token_set t.
Proof. unfold token_set. rewrite py_lower_idem. reflexivity. Qed.

Lemma lowered_words_lower (t : text) (w : text) :
  w ∈ lowered_words t -> py_lower w = w.
Proof.
  intros Hw. apply elem_of_list_to_set, list_elem_of_In, in_map_iff in Hw.
  destruct Hw as (w0 & <- & _). apply py_lower_idem.
Qed.

(** The error of the score against the exact percentage [100 * c / n]. *)
Lemma score_of_sizes_near (c n : nat) :
  (c <= n)%nat -> (0 < n)%nat ->
  (Qabs (score_of_sizes c n
         - 100 * inject_Z (Z.of_nat c) / inject_Z (Z.of_nat n))
   <= (1 # 200) + (1 # 10000000000000))%Q
  /\ (0 <= score_of_sizes c n <= 100)%Q.
Proof.
  intros Hc Hn. unfold score_of_sizes, float_mul.
  set (x := (inject_Z (Z.of_nat c) / inject_Z (Z.of_nat n))%Q).
  assert (Hx : (0 <= x <= 1)%Q).
  { assert (Pn : (0 < inject_Z (Z.of_nat n))%Q)
      by (unfold Qlt, inject_Z; simpl; lia).
    assert (Pc : (0 <= inject_Z (Z.of_nat c))%Q)
      by (unfold Qle, inject_Z; simpl; lia).
    assert (Le : (inject_Z (Z.of_nat c) <= inject_Z (Z.of_nat n))%Q)
      by (unfold Qle, inject_Z; simpl; lia).
    unfold x. split; [apply Qle_shift_div_l|apply Qle_shift_div_r]; lra. }
  pose proof (binary64_unit x Hx) as Hr.
  pose proof (binary64_near x 1 ltac:(lra)
                ltac:(change (2 ^ 1)%Q with 2%Q; lra) ltac:(lia)) as N1.
  change (2 ^ (1 - 54))%Q with (1 # 9007199254740992)%Q in N1.
  set (r := binary64 x) in *.
  assert (Hp : (0 <= r * 100 <= 100)%Q) by lra.
  pose proof (binary64_bounds _ Hp) as Hb.
  pose proof (binary64_near (r * 100) 7 ltac:(lra)
                ltac:(change (2 ^ 7)%Q with 128%Q; lra) ltac:(lia)) as N2.
  change (2 ^ (7 - 54))%Q with (1 # 140737488355328)%Q in N2.
  set (p := binary64 (r * 100)) in *.
  pose proof (py_round2_near p Hb) as N3.
  change (2 ^ (-47))%Q with (1 # 140737488355328)%Q in N3.
  pose proof (py_round2_bounds p Hb) as B3.
  set (q := py_round2 p) in *.
  split; [|exact B3].
  assert (E : (100 * inject_Z (Z.of_nat c) / inject_Z (Z.of_nat n) == 100 * x)%Q).
  { unfold x, Qdiv. ring. }
  rewrite E.
  apply Qabs_Qle_condition in N1, N2, N3.
  apply Qabs_Qle_condition. split; lra.
Qed.

Lemma token_sizes (X Y : gset text) :
  Y ≠ ∅ -> (size (X ∩ Y) <= size Y)%nat /\ (0 < size Y)%nat.
Proof.
  intros HY. split; [apply subseteq_size, intersection_subseteq_r|].
  assert (size Y ≠ 0%nat); [|lia].
  intros E. apply size_empty_inv in E. apply HY, leibniz_equiv, E.
Qed.

(** C1.  For every resume text, the match scorer called with the empty
    job description does not return a score: the job-description token set
    is empty and the division by its size raises [ZeroDivisionError]. *)
Theorem match_score_empty_job_description (resume_text : text) :
  calculate_match_score resume_text [] = Raise ZeroDivisionError.
Proof. reflexivity. Qed.

(** C2, as amended.  The match scorer lower-cases both texts before the
    whitespace split: for every pair of texts its result is the score of
    the two sets of lower-cased whitespace-separated words, it is the
    result for the two lower-cased texts, and every token of the two sets
    is its own lower-case form. *)
Theorem match_tokens_are_lowered_words (resume_text job_desc_text : text) :
  calculate_match_score resume_text job_desc_text
  = overlap_score (lowered_words resume_text) (lowered_words job_desc_text)
  /\ calculate_match_score resume_text job_desc_text
     = calculate_match_score (py_lower resume_text) (py_lower job_desc_text)
  /\ forall w,
       w ∈ lowered_words resume_text ∪ lowered_words job_desc_text ->
       py_lower w = w.
Proof.
  split; [|split].
  - rewrite <- !token_set_lowered. reflexivity.
  - unfold calculate_match_score. rewrite !token_set_lower. reflexivity.
  - intros w [Hw|Hw]%elem_of_union; eapply lowered_words_lower, Hw.
Qed.

(** C2 at the resume "Python" and the job description "python": the one
    token of each is "python", and the score is 100. *)
Lemma match_tokens_are_lowered_words_witness :
  calculate_match_score (str "Python") (str "python")
  = overlap_score {[ str "python" ]} {[ str "python" ]}
  /\ py_lower (str "python") = str "python".
Proof.
  pose proof (match_tokens_are_lowered_words (str "Python") (str "python"))
    as (E & _ & L).
  split.
  - rewrite E. f_equal; apply (bool_decide_eq_true_1 _); vm_compute; reflexivity.
  - apply L. apply (bool_decide_eq_true_1 _). vm_compute. reflexivity.
Defined.

(** C2 as stated fails.  The token set of "Python" is not the set of its
    original-case words, and the resume "Python" matches the job
    description "python" in full, where the original-case token sets
    share no word. *)
Lemma match_tokens_not_original_case :
  token_set (str "Python") ≠ original_case_tokens (str "Python")
  /\ exists q q',
       calculate_match_score (str "Python") (str "python") = Ok q
       /\ match_score_original_case (str "Python") (str "python") = Ok q'
       /\ (q == 100)%Q /\ (q' == 0)%Q.
Proof.
  split.
  - apply (bool_decide_eq_false_1 _). vm_compute. reflexivity.
  - do 2 eexists.
    split; [vm_compute; reflexivity|].
    split; [vm_compute; reflexivity|].
    split; vm_compute; reflexivity.
Qed.

(** C5, as amended.  With a non-empty job-description token set the match
    score is a function of the two set sizes alone: the float that
    binary64 division, multiplication by 100 and [round(_, 2)] give for
    [c = |resume ∩ jobdesc|] and [n = |jobdesc|].  It is the float nearest
    to a decimal with two places, lies in [0, 100] (the clamp never acts)
    and is within 0.005 + 10^-13 of the percentage [100 * c / n]. *)
Theorem match_score_rounded_overlap (resume_text job_desc_text : text) :
  token_set job_desc_text ≠ ∅ ->
  let c := size (token_set resume_text ∩ token_set job_desc_text) in
  let n := size (token_set job_desc_text) in
  exists q, calculate_match_score resume_text job_desc_text = Ok q
    /\ q = score_of_sizes c n
    /\ (exists k : Z, (0 <= k <= 10000)%Z /\ q = binary64 (inject_Z k / 100))
    /\ (Qabs (q - 100 * inject_Z (Z.of_nat c) / inject_Z (Z.of_nat n))
        <= (1 # 200) + (1 # 10000000000000))%Q
    /\ (0 <= q <= 100)%Q.
Proof.
  intros HY c n. exists (score_of_sizes c n).
  destruct (token_sizes (token_set resume_text) _ HY) as [Hc Hn].
  destruct (score_of_sizes_near c n Hc Hn) as [Hnear Hb].
  split; [apply match_score_value, HY|].
  split; [reflexivity|].
  split; [|split; assumption].
  unfold score_of_sizes, py_round2. eexists. split; [|reflexivity].
  set (p := float_mul _ 100).
  assert (Hp : (0 <= p <= 100)%Q).
  { unfold p, float_mul. apply binary64_bounds.
    assert (Hx : (0 <= inject_Z (Z.of_nat c) / inject_Z (Z.of_nat n) <= 1)%Q).
    { assert (Pn : (0 < inject_Z (Z.of_nat n))%Q)
        by (unfold Qlt, inject_Z; simpl; lia).
      assert (Pc : (0 <= inject_Z (Z.of_nat c))%Q)
        by (unfold Qle, inject_Z; simpl; lia).
      assert (Le : (inject_Z (Z.of_nat c) <= inject_Z (Z.of_nat n))%Q)
        by (unfold Qle, inject_Z; simpl; lia).
      split; [apply Qle_shift_div_l|apply Qle_shift_div_r]; lra. }
    apply binary64_unit in Hx. lra. }
  assert (L : (inject_Z 0 <= p * 100)%Q) by (change (inject_Z 0) with 0%Q; lra).
  assert (U : (p * 100 <= inject_Z 10000)%Q)
    by (change (inject_Z 10000) with 10000%Q; lra).
  apply round_half_even_ge in L. apply round_half_even_le in U.
  rewrite <- Zle_Qle in L, U. lia.
Qed.

(** C5 at the resume "a" and the job description "a b c". *)
Lemma match_score_rounded_overlap_witness :
  exists q, calculate_match_score (str "a") (str "a b c") = Ok q
    /\ q = score_of_sizes 1 3
    /\ (exists k : Z, (0 <= k <= 10000)%Z /\ q = binary64 (inject_Z k / 100))
    /\ (Qabs (q - 100 * inject_Z (Z.of_nat 1) / inject_Z (Z.of_nat 3))
        <= (1 # 200) + (1 # 10000000000000))%Q
    /\ (0 <= q <= 100)%Q.
Proof.
  apply (match_score_rounded_overlap (str "a") (str "a b c")).
  apply (bool_decide_eq_false_1 _). vm_compute. reflexivity.
Defined.

(** C5 as stated fails.  With one of three job-description tokens shared
    the score is the float 33.33, not the percentage 100/3.  With 23 of
    160 shared the percentage is 14.375, the float product is just below
    it, and the score is the float 14.37, more than 0.005 away. *)
Lemma match_score_not_exact_overlap :
  token_set (str "a b c") ≠ ∅
  /\ (exists q, calculate_match_score (str "a") (str "a b c") = Ok q
        /\ q = binary64 (3333 # 100)
        /\ ~ (q == clamped_overlap (str "a") (str "a b c"))%Q)
  /\ (exists q,
        calculate_match_score (distinct_words 23) (distinct_words 160) = Ok q
        /\ (clamped_overlap (distinct_words 23) (distinct_words 160)
            == 14375 # 1000)%Q
        /\ q = binary64 (1437 # 100)
        /\ (1 # 200 < Qabs (q - (14375 # 1000)))%Q).
Proof.
  split; [|split].
  - apply (bool_decide_eq_false_1 _). vm_compute. reflexivity.
  - eexists. split; [vm_compute; reflexivity|].
    split; [vm_compute; reflexivity|].
    vm_compute. discriminate.
  - eexists. split; [vm_compute; reflexivity|].
    split; [vm_compute; reflexivity|].
    split; [vm_compute; reflexivity|].
    vm_compute. reflexivity.
Qed.




(** ** The ATS scorer *)

Lemma py_min_bounds a b : (0 <= a -> 0 <= b -> 0 <= py_min a b <= b)%Q.
Proof.
  intros Ha Hb. unfold py_min. destruct (b ?= a)%Q eqn:E.
  - apply Qeq_alt in E. lra.
  - lra.
  - apply Qgt_alt in E. lra.
Qed.

Lemma len_nonneg {A} (l : list A) : (0 <= len l)%Q.
Proof. unfold len, Qle; simpl. lia. Qed.

Lemma ratio_in_unit (x d : Q) :
  (0 <= x)%Q -> (0 < d)%Q ->
  in_unit_interval (y ← py_div x d; mret (py_min y 1)).
Proof.
  intros Hx Hd. rewrite (py_div_ok x d Hd).
  exists (py_min (x / d) 1). split; [reflexivity|].
  apply py_min_bounds; [|lra].
  apply Qle_shift_div_l; [exact Hd|lra].
Qed.

Lemma keyword_density_unit stop t : in_unit_interval (calculate_keyword_density stop t).
Proof.
  unfold calculate_keyword_density. apply ratio_in_unit; [|lra].
  unfold Qle; simpl. lia.
Qed.

Lemma action_verbs_unit t : in_unit_interval (count_action_verbs t).
Proof.
  unfold count_action_verbs. apply ratio_in_unit; [apply len_nonneg|lra].
Qed.

Lemma quantifiable_unit t : in_unit_interval (check_quantifiable_results t).
Proof.
  unfold check_quantifiable_results. apply ratio_in_unit; [apply len_nonneg|lra].
Qed.

Lemma structure_fold_nonneg (f : string -> bool) l acc :
  (0 <= acc)%Q ->
  (0 <= fold_left (fun score section => if f section then score + 0.2 else score) l acc)%Q.
Proof.
  revert acc. induction l as [|x l IH]; intros acc H; simpl; [exact H|].
  apply IH. destruct (f x); lra.
Qed.

Lemma structure_unit t : (0 <= evaluate_structure t <= 1)%Q.
Proof.
  unfold evaluate_structure. apply py_min_bounds; [|lra].
  match goal with
  | |- context [fold_left ?f ?l ?a] =>
      assert (H : (0 <= fold_left f l a)%Q);
      [ apply (structure_fold_nonneg
          (fun section => found (re_search true (section_pattern section) t)));
        lra
      | set (x := fold_left f l a) in * ]
  end.
  destruct (found (re_search false date_range_pattern t)); lra.
Qed.

Lemma contact_info_unit t : in_unit_interval (check_contact_info t).
Proof.
  unfold check_contact_info.
  destruct (found (re_search false email_pattern t)),
    (found (re_search false phone_pattern t)),
    (found (re_search false profile_pattern t));
    (eexists; split; [reflexivity|]; split; unfold Qle; simpl; lia).
Qed.

Lemma length_unit t : (0 <= check_length t <= 1)%Q.
Proof.
  unfold check_length.
  destruct (_ && _); [lra|]. destruct (_ || _); lra.
Qed.

(** The sum over the weight table, in the order of the table. *)
Lemma weighted_sum_scores kd av qr st ci ln :
  weighted_sum
    (list_to_map
       [ ("keyword_density", kd); ("action_verbs", av);
         ("quantifiable_results", qr); ("structure", st);
         ("contact_info", ci); ("length", ln) ]%string)
    ATS_PARAMETERS 0
  = Ok (0 + kd * 0.3 + av * 0.15 + qr * 0.2 + st * 0.15 + ci * 0.1 + ln * 0.1)%Q.
Proof. reflexivity. Qed.

(** The four extractors that divide return a number, and the score is the
    clamped weighted sum of the six sub-scores. *)
Lemma ats_score_decompose stop t :
  exists kd av qr ci,
    calculate_keyword_density stop t = Ok kd /\ (0 <= kd <= 1)%Q
    /\ count_action_verbs t = Ok av /\ (0 <= av <= 1)%Q
    /\ check_quantifiable_results t = Ok qr /\ (0 <= qr <= 1)%Q
    /\ check_contact_info t = Ok ci /\ (0 <= ci <= 1)%Q
    /\ calculate_ats_score stop t
       = Ok (py_min ((0 + kd * 0.3 + av * 0.15 + qr * 0.2
                      + evaluate_structure t * 0.15 + ci * 0.1
                      + check_length t * 0.1) * 100) 100)%Q.
Proof.
  destruct (keyword_density_unit stop t) as (kd & Hkd & Bkd).
  destruct (action_verbs_unit t) as (av & Hav & Bav).
  destruct (quantifiable_unit t) as (qr & Hqr & Bqr).
  destruct (contact_info_unit t) as (ci & Hci & Bci).
  exists kd, av, qr, ci. repeat (split; [assumption|]).
  unfold calculate_ats_score. rewrite Hkd, Hav, Hqr, Hci. cbn [mbind result_bind].
  rewrite weighted_sum_scores. reflexivity.
Qed.

(** C3.  For every text, whatever the stop-word list, the ATS scorer
    returns a number between 0 and 100. *)
Theorem ats_score_range stop t :
  exists s, calculate_ats_score stop t = Ok s /\ (0 <= s <= 100)%Q.
Proof.
  destruct (ats_score_decompose stop t)
    as (kd & av & qr & ci & _ & Bkd & _ & Bav & _ & Bqr & _ & Bci & Hs).
  pose proof (structure_unit t) as Bst. pose proof (length_unit t) as Bln.
  eexists. split; [exact Hs|].
  apply py_min_bounds; lra.
Qed.

(** C6.  For every text each of the six feature extractors (keyword
    density, action verbs, quantifiable results, structure, contact
    information, length) returns a number between 0 and 1. *)
Theorem sub_scores_in_unit_interval stop t :
  in_unit_interval (calculate_keyword_density stop t)
  /\ in_unit_interval (count_action_verbs t)
  /\ in_unit_interval (check_quantifiable_results t)
  /\ (0 <= evaluate_structure t <= 1)%Q
  /\ in_unit_interval (check_contact_info t)
  /\ (0 <= check_length t <= 1)%Q.
Proof.
  split; [apply keyword_density_unit|].
  split; [apply action_verbs_unit|].
  split; [apply quantifiable_unit|].
  split; [apply structure_unit|].
  split; [apply contact_info_unit|apply length_unit].
Qed.

(** C8.  On the empty text no extractor and no scorer raises: each of the
    six extractors returns 0 and the ATS score is 0. *)
Theorem empty_text_scores_zero stop :
  returns (calculate_keyword_density stop []) 0
  /\ returns (count_action_verbs []) 0
  /\ returns (check_quantifiable_results []) 0
  /\ (evaluate_structure [] == 0)%Q
  /\ returns (check_contact_info []) 0
  /\ (check_length [] == 0)%Q
  /\ returns (calculate_ats_score stop []) 0.
Proof.
  unfold returns.
  split; [eexists; split; [vm_compute; reflexivity|reflexivity]|].
  split; [eexists; split; [vm_compute; reflexivity|reflexivity]|].
  split; [eexists; split; [vm_compute; reflexivity|reflexivity]|].
  split; [reflexivity|].
  split; [eexists; split; [vm_compute; reflexivity|reflexivity]|].
  split; [reflexivity|].
  eexists; split; [vm_compute; reflexivity|reflexivity].
Qed.

(** C7.  The length sub-score is 1 when the [\w+] word count lies in
    [400, 800], 0.5 when it lies in [300, 400) or (800, 1000], and 0
    otherwise; so it is 1 at 400 and 800 words, 0.5 at 399 and 801, and 0
    at 250 and 1001. *)
Theorem check_length_bands t :
  let n := word_count t in
  (400 <= n <= 800 -> check_length t = 1%Q)
  /\ (300 <= n < 400 \/ 800 < n <= 1000 -> check_length t = 0.5%Q)
  /\ (n < 300 \/ 1000 < n -> check_length t = 0%Q).
Proof.
  intros n. unfold check_length. fold n.
  split; [|split]; intros H;
    repeat match goal with
      | |- context [?a <? ?b] => destruct (Nat.ltb_spec a b); cbn [andb orb]
      | |- context [?a <=? ?b] => destruct (Nat.leb_spec a b); cbn [andb orb]
      end; first [reflexivity | lia].
Qed.

(** C7 at texts of exactly 400, 800, 399, 801, 250 and 1001 words. *)
Lemma check_length_bands_witness :
  check_length (words_text 400) = 1%Q /\ check_length (words_text 800) = 1%Q
  /\ check_length (words_text 399) = 0.5%Q /\ check_length (words_text 801) = 0.5%Q
  /\ check_length (words_text 250) = 0%Q /\ check_length (words_text 1001) = 0%Q.
Proof.
  split; [|split; [|split; [|split; [|split]]]].
  - apply (check_length_bands (words_text 400)). vm_compute. lia.
  - apply (check_length_bands (words_text 800)). vm_compute. lia.
  - apply (check_length_bands (words_text 399)). vm_compute. lia.
  - apply (check_length_bands (words_text 801)). vm_compute. lia.
  - apply (check_length_bands (words_text 250)). vm_compute. lia.
  - apply (check_length_bands (words_text 1001)). vm_compute. lia.
Defined.

(** ** The matcher and name extraction *)

Section Sound.
Variable ic : bool.

Lemma rep_loop_sound (body : mstate -> list mstate) (L : text -> Prop) :
  (forall st st', In st' (body st) -> exists w, st.2 = w ++ st'.2 /\ L w) ->
  forall fuel lo hi st st',
    In st' (rep_loop body fuel lo hi st) ->
    exists ws, st.2 = concat ws ++ st'.2 /\ Forall L ws
      /\ (lo <= length ws)%nat
      /\ match hi with Some h => (length ws <= h)%nat | None => True end.
Proof.
  intros Hbody.
  assert (Hstop : forall lo (hi : option nat) (st st' : mstate),
    In st' (match lo with O => [st] | S _ => [] end) ->
    exists ws, st.2 = concat ws ++ st'.2 /\ Forall L ws
      /\ (lo <= length ws)%nat
      /\ match hi with Some h => (length ws <= h)%nat | None => True end).
  { intros [|lo] hi st st' Hin; [|contradiction]. destruct Hin as [<-|[]].
    exists []. repeat split; [constructor|cbn; lia|destruct hi; [cbn; lia|exact I]]. }
  induction fuel as [|fuel IH]; intros lo hi st st' Hin.
  - exact (Hstop lo hi st st' Hin).
  - cbn [rep_loop] in Hin.
    assert (Hstep : In st' (flat_map (rep_loop body fuel (pred lo) (pred <$> hi)) (body st)) ->
      hi <> Some 0%nat ->
      exists ws, st.2 = concat ws ++ st'.2 /\ Forall L ws
        /\ (lo <= length ws)%nat
        /\ match hi with Some h => (length ws <= h)%nat | None => True end).
    { intros Hfm Hhi. apply in_flat_map in Hfm as (mid & Hmid & Hrest).
      destruct (Hbody _ _ Hmid) as (w1 & E1 & L1).
      destruct (IH _ _ _ _ Hrest) as (ws & E2 & Lws & Hlo & Hh).
      exists (w1 :: ws). split; [|split; [|split]].
      - cbn [concat]. rewrite E1, E2. apply app_assoc.
      - constructor; assumption.
      - cbn [length]. lia.
      - destruct hi as [[|h]|]; [congruence| |exact I].
        cbn in Hh. cbn [length]. lia. }
    destruct hi as [[|h]|].
    + exact (Hstop lo (Some 0%nat) st st' Hin).
    + apply in_app_iff in Hin as [Hin|Hin]; [apply Hstep; [exact Hin|discriminate]|].
      exact (Hstop lo (Some (S h)) st st' Hin).
    + apply in_app_iff in Hin as [Hin|Hin]; [apply Hstep; [exact Hin|discriminate]|].
      exact (Hstop lo None st st' Hin).
Qed.

Lemma run_sound r st st' :
  In st' (run ic r st) -> exists w, st.2 = w ++ st'.2 /\ lang ic r w.
Proof.
  revert st st'.
  induction r as [|items| |r1 IH1 r2 IH2|r1 IH1 r2 IH2|r IH lo hi];
    intros st st' Hin; cbn [run] in Hin.
  - destruct Hin as [<-|[]]. exists []. split; reflexivity.
  - destruct st as [p [|c s]]; cbn in Hin; [contradiction|].
    destruct (class_match ic items c) eqn:E; [|contradiction].
    destruct Hin as [<-|[]]. exists [c]. split; [reflexivity|].
    exists c. split; [reflexivity|exact E].
  - destruct (at_boundary st); [|contradiction].
    destruct Hin as [<-|[]]. exists []. split; reflexivity.
  - apply in_flat_map in Hin as (mid & Hmid & Hin).
    destruct (IH1 _ _ Hmid) as (w1 & E1 & L1).
    destruct (IH2 _ _ Hin) as (w2 & E2 & L2).
    exists (w1 ++ w2). split.
    + rewrite E1, E2. apply app_assoc.
    + exists w1, w2. repeat split; assumption.
  - apply in_app_iff in Hin as [Hin|Hin].
    + destruct (IH1 _ _ Hin) as (w & E & L). exists w. split; [exact E|left; exact L].
    + destruct (IH2 _ _ Hin) as (w & E & L). exists w. split; [exact E|right; exact L].
  - destruct (rep_loop_sound (run ic r) (lang ic r) IH _ _ _ _ _ Hin)
      as (ws & E & Lws & Hlo & Hh).
    exists (concat ws). split; [exact E|]. exists ws. repeat split; assumption.
Qed.

Lemma match_len_sound r p s n :
  match_len ic r (p, s) = Some n -> lang ic r (take n s).
Proof.
  unfold match_len.
  destruct (run ic r (p, s)) as [|st' l] eqn:E; [discriminate|].
  intros [= <-].
  destruct (run_sound r (p, s) st') as (w & Ew & Lw).
  { rewrite E. left. reflexivity. }
  cbn [snd] in *. rewrite Ew, length_app.
  replace (length w + length st'.2 - length st'.2)%nat with (length w) by lia.
  rewrite take_app_length. exact Lw.
Qed.

Lemma findall_from_sound r s :
  forall skip prev m, In m (findall_from ic r skip prev s) -> lang ic r m.
Proof.
  induction s as [|c s IH]; intros skip prev m Hin.
  - destruct skip; cbn in Hin; [|contradiction].
    destruct (match_len ic r (prev, [])) eqn:E; [|contradiction].
    destruct Hin as [<-|[]]. exact (match_len_sound r prev [] n E).
  - destruct skip; cbn [findall_from] in Hin; [|exact (IH _ _ _ Hin)].
    destruct (match_len ic r (prev, c :: s)) eqn:E; [|exact (IH _ _ _ Hin)].
    destruct Hin as [<-|Hin]; [|exact (IH _ _ _ Hin)].
    exact (match_len_sound r prev (c :: s) n E).
Qed.

Lemma lang_within (P : ascii -> Prop) r :
  classes_within ic P r -> forall w, lang ic r w -> Forall P w.
Proof.
  induction r as [|items| |r1 IH1 r2 IH2|r1 IH1 r2 IH2|r IH lo hi];
    intros Hok w Hw; cbn [lang classes_within] in *.
  - subst w. constructor.
  - destruct Hw as (c & -> & Hc). constructor; [apply Hok, Hc|constructor].
  - subst w. constructor.
  - destruct Hok as [Hok1 Hok2]. destruct Hw as (w1 & w2 & -> & L1 & L2).
    apply Forall_app. split; [apply IH1|apply IH2]; assumption.
  - destruct Hok as [Hok1 Hok2]. destruct Hw as [L|L]; [apply IH1|apply IH2]; assumption.
  - destruct Hw as (ws & -> & Lws & _).
    induction Lws as [|w ws Lw _ IHws]; [constructor|].
    cbn [concat]. apply Forall_app. split; [apply IH; assumption|exact IHws].
Qed.

End Sound.

Lemma lang_plus_class ic items w :
  lang ic (plus (Chars items)) w ->
  (1 <= length w)%nat /\ Forall (fun c => class_match ic items c = true) w.
Proof.
  intros (ws & -> & Lws & Hlo & _).
  assert (H : length (concat ws) = length ws
              /\ Forall (fun c => class_match ic items c = true) (concat ws)).
  { clear Hlo. induction Lws as [|w ws (c & -> & Hc) _ [IHl IHf]].
    - split; [reflexivity|constructor].
    - cbn [concat app length]. split; [congruence|constructor; assumption]. }
  destruct H as [Hl Hf]. split; [lia|exact Hf].
Qed.

Lemma capital_class c :
  class_match false [IRange "A" "Z"] c = true -> in_range 65 90 c = true.
Proof.
  unfold class_match. cbn [existsb]. unfold item_match, item_raw. cbn [andb orb].
  change (code "A") with 65%N. change (code "Z") with 90%N.
  destruct (in_range 65 90 c); [reflexivity|discriminate].
Qed.

Lemma space_class c : class_match false [ISpace] c = true -> py_isspace c = true.
Proof.
  unfold class_match. cbn [existsb]. unfold item_match, item_raw. cbn [andb orb].
  destruct (py_isspace c); [reflexivity|discriminate].
Qed.

Lemma capital_not_space c : in_range 65 90 c = true -> py_isspace c = false.
Proof.
  destruct c as [[] [] [] [] [] [] [] []]; cbn; intros H;
    first [reflexivity | discriminate H].
Qed.

(** The characters of a word join the current run of [split]. *)
Lemma split_acc_word W acc s :
  Forall (fun c => in_range 65 90 c = true) W ->
  split_acc acc (W ++ s) = split_acc (rev W ++ acc) s.
Proof.
  intros H. revert acc. induction H as [|c W Hc _ IH]; intros acc; [reflexivity|].
  cbn [app split_acc]. rewrite (capital_not_space c Hc), IH.
  cbn [rev]. rewrite <- app_assoc. reflexivity.
Qed.

(** Whitespace ends the current run of [split]. *)
Lemma split_acc_spaces S a acc s :
  Forall (fun c => py_isspace c = true) S -> (1 <= length S)%nat ->
  split_acc (a :: acc) (S ++ s) = rev (a :: acc) :: split_acc [] s.
Proof.
  intros H Hl. destruct H as [|c S Hc HS]; [cbn in Hl; lia|].
  cbn [app split_acc]. rewrite Hc. f_equal. clear Hl.
  induction HS as [|d S Hd _ IH]; [reflexivity|].
  cbn [app split_acc]. rewrite Hd. exact IH.
Qed.

(** A name word: one capital and then at least one more. *)
Lemma lang_name_word c W :
  class_match false [IRange "A" "Z"] c = true ->
  lang false (plus capital) W ->
  Forall (fun c => in_range 65 90 c = true) (c :: W)
  /\ caps_word (c :: W) = true.
Proof.
  intros Hc HW. apply lang_plus_class in HW as [Hl HF].
  assert (F : Forall (fun c => in_range 65 90 c = true) (c :: W)).
  { constructor; [apply capital_class, Hc|].
    eapply Forall_impl; [exact HF|]. intros x. apply capital_class. }
  split; [exact F|]. unfold caps_word. apply andb_true_intro. split.
  - apply Nat.leb_le. cbn [length]. lia.
  - apply forallb_forall. intros x Hx. rewrite Forall_forall in F. apply F.
    apply list_elem_of_In. exact Hx.
Qed.

Lemma split_acc_name_groups ws :
  Forall (lang false (seq_of [plus space; capital; plus capital])) ws ->
  forall a acc,
    exists tl, split_acc (a :: acc) (concat ws) = rev (a :: acc) :: tl
      /\ length tl = length ws
      /\ forallb caps_word tl = true.
Proof.
  induction 1 as [|g ws Hg _ IH]; intros a acc.
  - exists []. repeat split.
  - cbn [seq_of foldr lang] in Hg.
    destruct Hg as (S & g1 & -> & HS & c1 & g2 & -> & (c & -> & Hc) & W & e & -> & HW & ->).
    apply lang_plus_class in HS as [HSl HSf].
    destruct (lang_name_word c W Hc HW) as [HF Hcaps].
    rewrite app_nil_r. cbn [concat].
    rewrite <- !app_assoc.
    assert (HSs : Forall (fun c => py_isspace c = true) S).
    { eapply Forall_impl; [exact HSf|]. intros x. apply space_class. }
    rewrite (split_acc_spaces S a acc _ HSs HSl).
    rewrite (app_assoc [c] W), (split_acc_word ([c] ++ W) [] _ HF).
    rewrite app_nil_r.
    destruct (rev ([c] ++ W)) as [|b bs] eqn:Erev.
    { apply (f_equal (@length ascii)) in Erev. rewrite length_rev in Erev.
    discriminate. }
    destruct (IH b bs) as (tl & Etl & Hlen & Hall).
    exists (rev (b :: bs) :: tl). rewrite Etl. split; [reflexivity|].
    split; [cbn [length]; lia|].
    cbn [forallb]. rewrite <- Erev, rev_involutive. cbn [app].
    rewrite Hcaps. exact Hall.
Qed.

Lemma name_pattern_candidate m :
  lang false name_pattern m -> name_candidate m = true.
Proof.
  unfold name_pattern. cbn [seq_of foldr lang].
  intros (b & m1 & -> & -> & c1 & m2 & -> & (c & -> & Hc) & W & m3 & -> & HW
          & G & e & -> & (ws & -> & Hws & Hlo & Hhi) & e1 & e2 & -> & -> & ->).
  destruct (lang_name_word c W Hc HW) as [HF Hcaps].
  rewrite !app_nil_r. cbn [app]. unfold name_candidate, py_split.
  change (c :: W ++ concat ws) with ((c :: W) ++ concat ws).
  rewrite (split_acc_word (c :: W) [] _ HF), app_nil_r.
  destruct (rev (c :: W)) as [|b bs] eqn:Erev.
  { apply (f_equal (@length ascii)) in Erev. rewrite length_rev in Erev.
    discriminate. }
  destruct (split_acc_name_groups ws Hws b bs) as (tl & -> & Hlen & Hall).
  cbn [length forallb]. rewrite <- Erev, rev_involutive, Hcaps, Hall.
  apply andb_true_intro. split; [|reflexivity].
  apply andb_true_intro. split; apply Nat.leb_le; lia.
Qed.

Lemma capital_or_space_no_digit c :
  capital_or_space c = true -> is_decimal c = false.
Proof.
  destruct c as [[] [] [] [] [] [] [] []]; cbn; intros H;
    first [reflexivity | discriminate H].
Qed.

Lemma name_pattern_classes :
  classes_within false (fun c => capital_or_space c = true) name_pattern.
Proof.
  assert (Hcap : forall c, class_match false [IRange "A" "Z"] c = true ->
                           capital_or_space c = true).
  { intros c H. unfold capital_or_space. rewrite (capital_class c H).
    reflexivity. }
  assert (Hsp : forall c, class_match false [ISpace] c = true ->
                          capital_or_space c = true).
  { intros c H. unfold capital_or_space. rewrite (space_class c H).
    apply orb_true_r. }
  cbn. tauto.
Qed.

Lemma no_digit_search m prev :
  Forall (fun c => capital_or_space c = true) m ->
  search_from false digit prev m = None.
Proof.
  intros H. revert prev. induction H as [|c m Hc Hm IH]; intros prev; [reflexivity|].
  cbn [search_from]. unfold match_len. cbn [run digit snd].
  unfold class_match; cbn [existsb]; unfold item_match, item_raw.
  rewrite (capital_or_space_no_digit c Hc). cbn [orb andb]. apply IH.
Qed.

Lemma first_name_find (matches : list text) :
  (forall m, In m matches -> has_digit m = false) ->
  first_name matches
  = match find not_blacklisted matches with
    | Some m => py_title m
    | None => str "Not Found"
    end.
Proof.
  induction matches as [|m l IH]; intros H; [reflexivity|].
  cbn [first_name find]. rewrite (H m (or_introl eq_refl)).
  rewrite IH by (intros m' Hm'; apply H; right; exact Hm').
  destruct (not_blacklisted m); reflexivity.
Qed.

(** C9, as amended.  The candidates of name extraction are the matches of
    the name pattern found from left to right without overlap; each is a
    run of two to four whitespace-separated words of at least two letters
    A-Z.  The result is the title-cased first candidate none of whose
    words is blacklisted, and "Not Found" when there is none.  A candidate
    holds only the letters A-Z and whitespace, so the digit test never
    rejects one.  The text "JOHN SMITH" yields "John Smith" and the text
    "RESUME SUMMARY" yields "Not Found". *)
Theorem extract_name_first_match (t : text) :
  extract_name t
  = match find not_blacklisted (re_findall false name_pattern t) with
    | Some m => py_title m
    | None => str "Not Found"
    end
  /\ (forall m, In m (re_findall false name_pattern t) ->
        name_candidate m = true
        /\ Forall (fun c => capital_or_space c = true) m
        /\ has_digit m = false)
  /\ extract_name (str "JOHN SMITH") = str "John Smith"
  /\ extract_name (str "RESUME SUMMARY") = str "Not Found".
Proof.
  assert (Hm : forall m, In m (re_findall false name_pattern t) ->
        name_candidate m = true
        /\ Forall (fun c => capital_or_space c = true) m
        /\ has_digit m = false).
  { intros m Hin.
    pose proof (findall_from_sound false name_pattern t 0%nat None m Hin) as HL.
    pose proof (lang_within false _ name_pattern name_pattern_classes m HL) as HF.
    split; [exact (name_pattern_candidate m HL)|].
    split; [exact HF|]. unfold has_digit, re_search.
    rewrite (no_digit_search m None HF). reflexivity. }
  split; [|split; [exact Hm|split; vm_compute; reflexivity]].
  unfold extract_name. apply first_name_find. intros m Hin. apply Hm, Hin.
Qed.

(** C9 at the text "JOHN SMITH": its one candidate is free of digits. *)
Lemma extract_name_first_match_witness :
  name_candidate (str "JOHN SMITH") = true
  /\ Forall (fun c => capital_or_space c = true) (str "JOHN SMITH")
  /\ has_digit (str "JOHN SMITH") = false.
Proof.
  apply (extract_name_first_match (str "JOHN SMITH")).
  vm_compute. left. reflexivity.
Defined.

(** C9 as stated fails.  In "RESUME JOHN SMITH" the words JOHN SMITH are
    two consecutive all-caps words, none blacklisted, and the runs that
    start earlier hold the blacklisted RESUME; yet the one candidate of the
    code is the whole text and the result is "Not Found". *)
Lemma extract_name_misses_candidate :
  consecutive_words [str "JOHN"; str "SMITH"]
    (py_split (str "RESUME JOHN SMITH")) = true
  /\ valid_candidate [str "JOHN"; str "SMITH"] = true
  /\ valid_candidate [str "RESUME"; str "JOHN"] = false
  /\ valid_candidate [str "RESUME"; str "JOHN"; str "SMITH"] = false
  /\ re_findall false name_pattern (str "RESUME JOHN SMITH")
     = [str "RESUME JOHN SMITH"]
  /\ extract_name (str "RESUME JOHN SMITH") = str "Not Found".
Proof.
  split; [vm_compute; reflexivity|].
  split; [vm_compute; reflexivity|].
  split; [vm_compute; reflexivity|].
  split; [vm_compute; reflexivity|].
  split; vm_compute; reflexivity.
Qed.

(** ** The end-to-end fixture *)

Lemma starts_with_split p s : starts_with p s = true -> exists post, s = p ++ post.
Proof.
  revert s. induction p as [|a p IH]; intros s H.
  - exists s. reflexivity.
  - destruct s as [|b s]; [discriminate|]. cbn in H.
    apply andb_prop in H as [Hab Hp]. apply bool_decide_eq_true_1 in Hab. subst b.
    destruct (IH s Hp) as [post ->]. exists post. reflexivity.
Qed.

Lemma starts_with_app p post : starts_with p (p ++ post) = true.
Proof.
  induction p as [|a p IH]; [reflexivity|]. cbn.
  rewrite bool_decide_eq_true_2 by reflexivity. exact IH.
Qed.

Lemma py_contains_split n h :
  py_contains n h = true -> exists pre post, h = pre ++ n ++ post.
Proof.
  induction h as [|c h IH]; cbn [py_contains]; intros H.
  - apply orb_prop in H as [H|H]; [|discriminate].
    destruct (starts_with_split _ _ H) as [post E]. exists [], post. exact E.
  - apply orb_prop in H as [H|H].
    + destruct (starts_with_split _ _ H) as [post E]. exists [], post. exact E.
    + destruct (IH H) as (pre & post & ->). exists (c :: pre), post. reflexivity.
Qed.

Lemma py_contains_app n pre post : py_contains n (pre ++ n ++ post) = true.
Proof.
  induction pre as [|c pre IH]; cbn [app].
  - destruct (n ++ post) eqn:E; cbn [py_contains]; rewrite <- E, starts_with_app; reflexivity.
  - cbn [py_contains]. rewrite IH. apply orb_true_r.
Qed.

Lemma last_before_cons prev c pre :
  last_before prev (c :: pre) = last_before (Some c) pre.
Proof.
  unfold last_before. destruct pre as [|d pre]; [reflexivity|].
  change (last (c :: d :: pre)) with (last (d :: pre)).
  destruct (last (d :: pre)) eqn:E; [reflexivity|].
  apply last_None in E. discriminate.
Qed.

Lemma has_word_from_split w prev s :
  has_word_from w prev s = true ->
  exists pre post, s = pre ++ w ++ post
    /\ is_word_opt (last_before prev pre) = false
    /\ is_word_opt (head post) = false.
Proof.
  revert prev. induction s as [|c s IH]; intros prev H; cbn [has_word_from] in H.
  - rewrite orb_false_r in H. unfold word_at in H.
    apply andb_prop in H as [H H3]. apply andb_prop in H as [H1 H2].
    destruct (starts_with_split _ _ H1) as [post E].
    exists [], post. split; [exact E|]. split.
    + apply negb_true_iff in H2. exact H2.
    + apply negb_true_iff in H3. rewrite E, drop_app_length in H3. exact H3.
  - apply orb_prop in H as [H|H].
    + unfold word_at in H.
      apply andb_prop in H as [H H3]. apply andb_prop in H as [H1 H2].
      destruct (starts_with_split _ _ H1) as [post E].
      exists [], post. split; [exact E|]. split.
      * apply negb_true_iff in H2. exact H2.
      * apply negb_true_iff in H3. rewrite E, drop_app_length in H3. exact H3.
    + destruct (IH _ H) as (pre & post & -> & Hp & Hq).
      exists (c :: pre), post. split; [reflexivity|]. split; [|exact Hq].
      rewrite last_before_cons. exact Hp.
Qed.

(** matcher: ways of matching *)
Lemma run_Eps_in ic st : In st (run ic Eps st).
Proof. left. reflexivity. Qed.

Lemma run_Chars_in ic items p c s :
  class_match ic items c = true -> In (Some c, s) (run ic (Chars items) (p, c :: s)).
Proof. intros H. cbn. rewrite H. left. reflexivity. Qed.

Lemma run_Bnd_in ic st : at_boundary st = true -> In st (run ic Bnd st).
Proof. intros H. cbn. rewrite H. left. reflexivity. Qed.

Lemma run_Cat_in ic r1 r2 st mid st' :
  In mid (run ic r1 st) -> In st' (run ic r2 mid) -> In st' (run ic (Cat r1 r2) st).
Proof. intros H1 H2. cbn. apply in_flat_map. exists mid. split; assumption. Qed.

Lemma run_Alt_l ic r1 r2 st st' : In st' (run ic r1 st) -> In st' (run ic (Alt r1 r2) st).
Proof. intros H. cbn. apply in_app_iff. left. exact H. Qed.

Lemma run_Alt_r ic r1 r2 st st' : In st' (run ic r2 st) -> In st' (run ic (Alt r1 r2) st).
Proof. intros H. cbn. apply in_app_iff. right. exact H. Qed.

Lemma rep_loop_stop body fuel hi st : In st (rep_loop body fuel 0 hi st).
Proof.
  destruct fuel as [|fuel]; [left; reflexivity|].
  cbn [rep_loop]. destruct hi as [[|h]|]; [left; reflexivity| |];
    apply in_app_iff; right; left; reflexivity.
Qed.

Lemma rep_loop_step body fuel lo hi st mid st' :
  hi ≠ Some 0%nat ->
  In mid (body st) ->
  In st' (rep_loop body fuel (pred lo) (pred <$> hi) mid) ->
  In st' (rep_loop body (S fuel) lo hi st).
Proof.
  intros Hhi Hmid Hst'. cbn [rep_loop].
  destruct hi as [[|h]|]; [congruence| |];
    apply in_app_iff; left; apply in_flat_map; exists mid; split; assumption.
Qed.

Lemma run_Rep_stop ic r hi st : In st (run ic (Rep r 0 hi) st).
Proof. apply rep_loop_stop. Qed.

Lemma match_len_in ic r st st' :
  In st' (run ic r st) -> exists n, match_len ic r st = Some n.
Proof.
  unfold match_len. destruct (run ic r st); [contradiction|]. eauto.
Qed.

Lemma search_from_found ic r prev pre s n :
  match_len ic r (last_before prev pre, s) = Some n ->
  found (search_from ic r prev (pre ++ s)) = true.
Proof.
  revert prev. induction pre as [|c pre IH]; intros prev H.
  - cbn [app]. change (last_before prev []) with prev in H.
    destruct s; cbn [search_from]; rewrite H; reflexivity.
  - cbn [app search_from].
    destruct (match_len ic r (prev, c :: pre ++ s)); [reflexivity|].
    apply IH. rewrite <- (last_before_cons prev). exact H.
Qed.

Lemma findall_from_nonempty ic r prev pre s n :
  match_len ic r (last_before prev pre, s) = Some n ->
  (1 <= length (findall_from ic r 0 prev (pre ++ s)))%nat.
Proof.
  revert prev. induction pre as [|c pre IH]; intros prev H.
  - cbn [app]. change (last_before prev []) with prev in H.
    destruct s; cbn [findall_from]; rewrite H; cbn [length]; lia.
  - cbn [app findall_from].
    destruct (match_len ic r (prev, c :: pre ++ s)); [cbn [length]; lia|].
    apply IH. rewrite <- (last_before_cons prev). exact H.
Qed.

Lemma quantifier_at_30_percent post :
  exists n, match_len true quantifier_pattern
              (Some " "%char, str "30%" ++ post) = Some n.
Proof.
  apply (match_len_in _ _ _ (Some "0"%char, "%"%char :: post)).
  unfold quantifier_pattern. cbn [seq_of foldr alt_of str list_ascii_of_string app].
  eapply run_Cat_in; [apply run_Bnd_in; reflexivity|].
  eapply run_Cat_in.
  { apply run_Alt_r, run_Alt_r, run_Alt_l.
    eapply run_Cat_in; [apply run_Rep_stop|].
    eapply run_Cat_in.
    { unfold plus. cbn [run snd length].
      eapply rep_loop_step; [discriminate|apply run_Chars_in; reflexivity|].
      eapply rep_loop_step; [discriminate|apply run_Chars_in; reflexivity|].
      apply rep_loop_stop. }
    eapply run_Cat_in; [apply run_Rep_stop|].
    eapply run_Cat_in; [apply run_Rep_stop|apply run_Eps_in]. }
  eapply run_Cat_in; [apply run_Bnd_in; reflexivity|apply run_Eps_in].
Qed.

Lemma section_at_heading p post :
  is_word_opt p = false -> is_word_opt (head post) = false ->
  exists n, match_len true (section_pattern "experience")
              (p, str "Experience" ++ post) = Some n.
Proof.
  intros Hp Hpost.
  apply (match_len_in _ _ _ (Some "e"%char, post)).
  unfold section_pattern, Lit.
  cbn [seq_of foldr map str list_ascii_of_string app].
  eapply run_Cat_in.
  { apply run_Bnd_in. unfold at_boundary. cbn [fst snd head]. rewrite Hp. reflexivity. }
  eapply run_Cat_in.
  { repeat (eapply run_Cat_in; [apply run_Chars_in; reflexivity|]). apply run_Eps_in. }
  eapply run_Cat_in; [|apply run_Eps_in].
  apply run_Bnd_in. unfold at_boundary. cbn [fst snd]. rewrite Hpost. reflexivity.
Qed.

Lemma py_min_ge a b c : (c <= a -> c <= b -> c <= py_min a b)%Q.
Proof. intros Ha Hb. unfold py_min. destruct (b ?= a)%Q; assumption. Qed.

Lemma len_ge_1 {A} (l : list A) : (1 <= length l)%nat -> (1 <= len l)%Q.
Proof. intros H. unfold len, Qle; simpl. lia. Qed.

Lemma ratio_lower (x d : Q) :
  (1 <= x)%Q -> (1 <= d)%Q ->
  exists q, (y ← py_div x d; mret (py_min y 1)) = Ok q /\ (1 / d <= q)%Q.
Proof.
  intros Hx Hd. rewrite (py_div_ok x d) by lra.
  exists (py_min (x / d) 1). split; [reflexivity|].
  apply py_min_ge.
  - unfold Qdiv. apply Qmult_le_compat_r; [exact Hx|].
    apply Qlt_le_weak, Qinv_lt_0_compat. lra.
  - apply Qle_shift_div_r; lra.
Qed.

Lemma action_verbs_lower t :
  py_contains (str "increased sales by 30%") t = true ->
  exists av, count_action_verbs t = Ok av /\ (1 # 5 <= av)%Q.
Proof.
  intros H. destruct (py_contains_split _ _ H) as (pre & post & ->).
  unfold count_action_verbs.
  match goal with
  | |- context [len ?l] => assert (Hl : (1 <= length l)%nat); [|set (vs := l) in *]
  end.
  { assert (Hin : "increased"%string ∈
      filter (fun verb => py_contains (str verb)
                (py_lower (pre ++ str "increased sales by 30%" ++ post)) = true)
             ACTION_VERBS).
    { apply list_elem_of_filter. split.
      - unfold py_lower. rewrite !map_app.
        change (map lower_char (str "increased sales by 30%"))
          with (str "increased" ++ str " sales by 30%").
        rewrite <- (app_assoc (str "increased")). apply py_contains_app.
      - unfold ACTION_VERBS. set_solver. }
    destruct (filter _ ACTION_VERBS) as [|v vs]; [|cbn [length]; lia].
    apply elem_of_nil in Hin. contradiction. }
  destruct (ratio_lower (len vs) 5 (len_ge_1 vs Hl) ltac:(lra)) as (q & Hq & Bq).
  exists q. split; [exact Hq|]. 
  assert ((1 / 5 == 1 # 5)%Q) by reflexivity. lra.
Qed.

Lemma quantifiable_lower t :
  py_contains (str "increased sales by 30%") t = true ->
  exists qr, check_quantifiable_results t = Ok qr /\ (1 # 3 <= qr)%Q.
Proof.
  intros H. destruct (py_contains_split _ _ H) as (pre & post & ->).
  unfold check_quantifiable_results, re_findall.
  destruct (quantifier_at_30_percent post) as [n Hn].
  assert (Hl : (1 <= length (findall_from true quantifier_pattern 0 None
                   (pre ++ str "increased sales by 30%" ++ post)))%nat).
  { change (str "increased sales by 30%")
      with ((str "increased sales by" ++ [" "%char]) ++ str "30%").
    rewrite <- (app_assoc _ (str "30%") post), (app_assoc pre).
    apply (findall_from_nonempty _ _ _ _ _ n).
    unfold last_before. rewrite app_assoc, last_snoc. exact Hn. }
  destruct (ratio_lower _ 3 (len_ge_1 _ Hl) ltac:(lra)) as (q & Hq & Bq).
  exists q. split; [exact Hq|].
  assert ((1 / 3 == 1 # 3)%Q) by reflexivity. lra.
Qed.

Lemma structure_fold_mono (f : string -> bool) l acc :
  (acc <= fold_left (fun score section => if f section then score + 0.2 else score) l acc)%Q.
Proof.
  revert acc. induction l as [|x l IH]; intros acc; cbn [fold_left]; [lra|].
  eapply Qle_trans; [|apply IH]. destruct (f x); lra.
Qed.

Lemma structure_lower t :
  has_heading "Experience" t = true -> (1 # 5 <= evaluate_structure t)%Q.
Proof.
  intros H. destruct (has_word_from_split _ _ _ H) as (pre & post & -> & Hp & Hq).
  destruct (section_at_heading _ post Hp Hq) as [n Hn].
  pose proof (search_from_found _ _ _ _ _ _ Hn
    : found (re_search true (section_pattern "experience")
               (pre ++ str "Experience" ++ post)) = true) as Hf.
  unfold evaluate_structure, sections. cbn [fold_left]. rewrite Hf.
  apply py_min_ge; [|lra].
  repeat match goal with
    | |- context [found ?m] => destruct (found m)
    end; lra.
Qed.

Lemma contact_info_lower t :
  found (re_search false email_pattern t) = true ->
  exists ci, check_contact_info t = Ok ci /\ (1 # 3 <= ci)%Q.
Proof.
  intros H. unfold check_contact_info. rewrite H.
  destruct (found (re_search false phone_pattern t)),
    (found (re_search false profile_pattern t));
    (eexists; split; [reflexivity|]; unfold Qle; simpl; lia).
Qed.

Lemma length_ideal t : word_count t = 500%nat -> check_length t = 1%Q.
Proof. intros H. unfold check_length. rewrite H. reflexivity. Qed.

Lemma not_in_by_eqb (x : string) (l : list string) :
  existsb (String.eqb x) l = false -> ~ In x l.
Proof.
  intros H Hin. assert (existsb (String.eqb x) l = true); [|congruence].
  apply existsb_exists. exists x. split; [exact Hin|apply String.eqb_refl].
Qed.

Lemma feedback_without_length_line stop score t :
  (400 <= word_count t <= 800)%nat ->
  exists fb, generate_feedback stop score t = Ok fb
    /\ ~ In too_short_line fb /\ ~ In too_long_line fb.
Proof.
  intros [Hlo Hhi].
  destruct (keyword_density_unit stop t) as (kd & Hkd & _).
  destruct (action_verbs_unit t) as (av & Hav & _).
  destruct (quantifiable_unit t) as (qr & Hqr & _).
  destruct (contact_info_unit t) as (ci & Hci & _).
  unfold generate_feedback. rewrite Hkd, Hav, Hqr, Hci.
  cbn [mbind result_bind mret result_ret].
  replace (word_count t <? 400) with false by (symmetry; apply Nat.ltb_ge; exact Hlo).
  replace (800 <? word_count t) with false by (symmetry; apply Nat.ltb_ge; exact Hhi).
  destruct (Qltb score 60), (Qltb score 80), (Qltb kd 0.5), (Qltb av 0.5),
    (Qltb qr 0.5), (Qltb (evaluate_structure t) 0.7), (Qltb ci 1);
    (eexists; split; [reflexivity|]; split; apply not_in_by_eqb; vm_compute; reflexivity).
Qed.

(** C4, as amended.  For every text of 500 words with an email address,
    the bullet "increased sales by 30%" and an "Experience" heading, the
    ATS score is at least 26, and the feedback list holds neither the
    "too short" line nor the "too long" line. *)
Theorem end_to_end_score_and_feedback stop t :
  end_to_end_fixture t ->
  exists s fb,
    calculate_ats_score stop t = Ok s /\ (26 <= s)%Q
    /\ generate_feedback stop s t = Ok fb
    /\ ~ In too_short_line fb /\ ~ In too_long_line fb.
Proof.
  intros (Hwc & Hmail & Hbullet & Hhead).
  destruct (ats_score_decompose stop t)
    as (kd & av & qr & ci & Hkd & Bkd & Hav & _ & Hqr & _ & Hci & _ & Hs).
  destruct (action_verbs_lower t Hbullet) as (av' & Hav' & Bav).
  destruct (quantifiable_lower t Hbullet) as (qr' & Hqr' & Bqr).
  destruct (contact_info_lower t Hmail) as (ci' & Hci' & Bci).
  rewrite Hav in Hav'. injection Hav' as <-.
  rewrite Hqr in Hqr'. injection Hqr' as <-.
  rewrite Hci in Hci'. injection Hci' as <-.
  pose proof (structure_lower t Hhead) as Bst.
  pose proof (length_ideal t Hwc) as Eln.
  match type of Hs with _ = Ok ?v => set (s := v) in * end.
  destruct (feedback_without_length_line stop s t ltac:(rewrite Hwc; lia))
    as (fb & Hfb & Hshort & Hlong).
  exists s, fb. split; [exact Hs|]. split; [|repeat split; assumption].
  subst s. rewrite Eln. apply py_min_ge; lra.
Qed.

Lemma py_min_le_l a b : (py_min a b <= a)%Q.
Proof.
  unfold py_min. destruct (b ?= a)%Q eqn:E; try lra.
  apply Qlt_alt in E. lra.
Qed.

(** The stop words only lower the keyword density. *)
Lemma keyword_density_upper stop t :
  exists kd, calculate_keyword_density stop t = Ok kd
    /\ (kd <= inject_Z (Z.of_nat (size (list_to_set (C := gset text)
               (map py_lower (filter (fun w => py_isalpha w = true)
                  (re_findall false word_pattern t)))))) / 50)%Q.
Proof.
  unfold calculate_keyword_density. rewrite py_div_ok by lra.
  eexists. split; [reflexivity|].
  eapply Qle_trans; [apply py_min_le_l|].
  unfold Qdiv. apply Qmult_le_compat_r; [|unfold Qle; simpl; lia].
  rewrite <- Zle_Qle. apply inj_le, subseteq_size.
  intros w Hw. apply elem_of_list_to_set in Hw. apply elem_of_list_to_set.
  apply list_elem_of_filter in Hw. apply Hw.
Qed.

(** C4 at the fixture text, with no stop words. *)
Lemma end_to_end_score_and_feedback_witness :
  exists s fb,
    calculate_ats_score [] fixture_text = Ok s /\ (26 <= s)%Q
    /\ generate_feedback [] s fixture_text = Ok fb
    /\ ~ In too_short_line fb /\ ~ In too_long_line fb.
Proof.
  apply (end_to_end_score_and_feedback [] fixture_text).
  unfold end_to_end_fixture.
  split; [|split; [|split]]; vm_compute; reflexivity.
Defined.

(** C4 as stated fails.  The fixture text has 500 words, an email address,
    the bullet and the heading, and whatever the stop-word list its ATS
    score is below 50. *)
Lemma end_to_end_score_below_50 :
  end_to_end_fixture fixture_text
  /\ forall stop, exists s,
       calculate_ats_score stop fixture_text = Ok s /\ (s < 50)%Q.
Proof.
  split.
  - unfold end_to_end_fixture.
    split; [|split; [|split]]; vm_compute; reflexivity.
  - intros stop.
    destruct (ats_score_decompose stop fixture_text)
      as (kd & av & qr & ci & Hkd & Bkd & Hav & _ & Hqr & _ & Hci & _ & Hs).
    destruct (keyword_density_upper stop fixture_text) as (kd' & Hkd' & Ukd).
    rewrite Hkd in Hkd'. injection Hkd' as <-.
    assert (Ekd : (kd <= 8 # 50)%Q).
    { eapply Qle_trans; [exact Ukd|]. vm_compute. discriminate. }
    vm_compute in Hav. injection Hav as <-.
    vm_compute in Hqr. injection Hqr as <-.
    vm_compute in Hci. injection Hci as <-.
    assert (Est : (evaluate_structure fixture_text == 1 # 5)%Q)
      by (vm_compute; reflexivity).
    assert (Eln : (check_length fixture_text == 1)%Q)
      by (vm_compute; reflexivity).
    eexists. split; [exact Hs|].
    eapply Qle_lt_trans; [apply py_min_le_l|]. lra.
Qed.

(** ** Uploads and text extraction *)

Lemma split_last_none sep s : ~ In sep s -> split_last sep s = None.
Proof.
  induction s as [|c s IH]; intros H; [reflexivity|].
  cbn [split_last]. rewrite IH by (intros Hs; apply H; right; exact Hs).
  rewrite bool_decide_eq_false_2; [reflexivity|].
  intros ->. apply H. left. reflexivity.
Qed.

Lemma split_last_app sep base ext :
  ~ In sep ext -> split_last sep (base ++ sep :: ext) = Some (base, ext).
Proof.
  intros H. induction base as [|c base IH]; cbn [app split_last].
  - rewrite (split_last_none sep ext H).
    rewrite bool_decide_eq_true_2 by reflexivity. reflexivity.
  - rewrite IH. reflexivity.
Qed.

Lemma py_contains_char c s : py_contains [c] s = true <-> In c s.
Proof.
  induction s as [|d s IH]; cbn [py_contains starts_with].
  - split; [discriminate|intros []].
  - rewrite andb_true_r. split.
    + intros H. apply orb_prop in H as [H|H].
      * apply bool_decide_eq_true_1 in H. left. symmetry. exact H.
      * right. apply IH, H.
    + intros [->|H].
      * rewrite bool_decide_eq_true_2 by reflexivity. reflexivity.
      * apply orb_true_intro. right. apply IH, H.
Qed.

Lemma allowed_extension ext :
  py_lower ext ∈ ALLOWED_EXTENSIONS
  <-> py_lower ext = str "pdf" \/ py_lower ext = str "docx".
Proof. unfold ALLOWED_EXTENSIONS. set_solver. Qed.

Lemma allowed_file_no_dot name : ~ In "."%char name -> allowed_file name = false.
Proof.
  intros H. unfold allowed_file.
  destruct (py_contains (str ".") name) eqn:E; [|reflexivity].
  apply py_contains_char in E. contradiction.
Qed.

Lemma allowed_file_dot base ext :
  ~ In "."%char ext ->
  allowed_file (base ++ "."%char :: ext)
  = bool_decide (py_lower ext ∈ ALLOWED_EXTENSIONS).
Proof.
  intros H. unfold allowed_file, rsplit1. rewrite (split_last_app _ _ _ H).
  replace (py_contains (str ".") (base ++ "."%char :: ext)) with true.
  - reflexivity.
  - symmetry. apply py_contains_char, in_app_iff. right. left. reflexivity.
Qed.

Lemma split_last_some sep s :
  In sep s -> exists a b, split_last sep s = Some (a, b).
Proof.
  induction s as [|c s IH]; intros H; [destruct H|].
  cbn [split_last]. destruct (split_last sep s) as [[a b]|] eqn:E.
  - eauto.
  - destruct H as [->|H].
    + rewrite bool_decide_eq_true_2 by reflexivity. eauto.
    + destruct (IH H) as (a & b & Hab). discriminate Hab.
Qed.

Lemma allowed_file_call_ok name : allowed_file_call name = Ok (allowed_file name).
Proof.
  unfold allowed_file_call, allowed_file.
  destruct (py_contains (str ".") name) eqn:E; [|reflexivity].
  apply py_contains_char in E.
  destruct (split_last_some _ _ E) as (a & b & Hab).
  unfold rsplit1. rewrite Hab. reflexivity.
Qed.

(** X1.  A call of [allowed_file] never raises: the index [1] is taken
    only of a split in two parts.  It rejects a name without a dot, and
    accepts a name with a dot exactly when what follows the last dot is
    "pdf" or "docx" in any mix of cases. *)
Theorem allowed_file_last_extension :
  (forall name, allowed_file_call name = Ok (allowed_file name))
  /\ (forall name, ~ In "."%char name -> allowed_file name = false)
  /\ (forall base ext, ~ In "."%char ext ->
        (allowed_file (base ++ "."%char :: ext) = true
         <-> py_lower ext = str "pdf" \/ py_lower ext = str "docx")).
Proof.
  split; [exact allowed_file_call_ok|].
  split; [exact allowed_file_no_dot|].
  intros base ext H. rewrite (allowed_file_dot base ext H).
  rewrite bool_decide_eq_true. apply allowed_extension.
Qed.

(** X1 at "resume" and at "my.cv.PDF". *)
Lemma allowed_file_last_extension_witness :
  allowed_file_call (str "resume.") = Ok false
  /\ allowed_file (str "resume") = false
  /\ allowed_file (str "my.cv" ++ "."%char :: str "PDF") = true.
Proof.
  split; [|split].
  - apply (proj1 allowed_file_last_extension (str "resume.")).
  - apply allowed_file_last_extension. vm_compute. intuition discriminate.
  - apply allowed_file_last_extension.
    + vm_compute. intuition discriminate.
    + left. reflexivity.
Defined.

Lemma starts_with_iff p s : starts_with p s = true <-> exists post, s = p ++ post.
Proof.
  split; [apply starts_with_split|]. intros [post ->]. apply starts_with_app.
Qed.

Lemma py_endswith_iff suffix s :
  py_endswith suffix s = true <-> exists pre, s = pre ++ suffix.
Proof.
  unfold py_endswith. rewrite starts_with_iff. split.
  - intros [post E]. exists (rev post).
    apply (f_equal (@rev ascii)) in E. rewrite rev_involutive in E.
    rewrite E, rev_app_distr, rev_involutive. reflexivity.
  - intros [pre ->]. exists (rev pre). apply rev_app_distr.
Qed.

(** The name ends in a dot and [ext0] only if [ext0] is its extension. *)
Lemma py_endswith_extension base ext ext0 :
  ~ In "."%char ext -> ~ In "."%char ext0 ->
  py_endswith ("."%char :: ext0) (base ++ "."%char :: ext) = true -> ext = ext0.
Proof.
  intros H H0 E. apply py_endswith_iff in E as [pre E].
  pose proof (split_last_app "."%char base ext H) as S1.
  rewrite E, (split_last_app "."%char pre ext0 H0) in S1. congruence.
Qed.

Lemma case_mismatch_extracts_nothing pdf_pages docx_process base ext body :
  ~ In "."%char ext ->
  ext <> py_lower ext ->
  extract_text pdf_pages docx_process
    {| filename := base ++ "."%char :: ext; content := body |} = [].
Proof.
  intros H Hne. unfold extract_text. cbn [filename content].
  destruct (py_endswith (str ".pdf") _) eqn:E1.
  { apply (py_endswith_extension base ext (str "pdf") H) in E1;
      [|vm_compute; intuition discriminate].
    subst ext. exfalso. apply Hne. reflexivity. }
  destruct (py_endswith (str ".docx") _) eqn:E2; [|reflexivity].
  apply (py_endswith_extension base ext (str "docx") H) in E2;
    [|vm_compute; intuition discriminate].
  subst ext. exfalso. apply Hne. reflexivity.
Qed.

(** X2.  A file whose extension is "pdf" or "docx" with a capital letter
    in it passes [allowed_file], and [extract_text] returns the empty text
    for it without calling a document library: [endswith] compares the
    extension as it is written. *)
Theorem extension_case_mismatch pdf_pages docx_process base ext body :
  ~ In "."%char ext ->
  py_lower ext ∈ ALLOWED_EXTENSIONS ->
  ext <> py_lower ext ->
  let file := {| filename := base ++ "."%char :: ext; content := body |} in
  allowed_file (filename file) = true
  /\ extract_text pdf_pages docx_process file = [].
Proof.
  intros H Hal Hne file. split.
  - unfold file. cbn [filename]. rewrite (allowed_file_dot base ext H).
    apply bool_decide_eq_true_2, Hal.
  - apply case_mismatch_extracts_nothing; assumption.
Qed.

(** X2 at the file "CV.PDF". *)
Lemma extension_case_mismatch_witness :
  allowed_file (str "CV" ++ "."%char :: str "PDF") = true
  /\ extract_text (fun _ => Some [str "page"]) (fun _ => Some (str "text"))
       {| filename := str "CV" ++ "."%char :: str "PDF";
          content := str "%PDF" |} = [].
Proof.
  apply (extension_case_mismatch _ _ (str "CV") (str "PDF") (str "%PDF")).
  - vm_compute. intuition discriminate.
  - apply (bool_decide_eq_true_1 _). vm_compute. reflexivity.
  - discriminate.
Defined.

(** ** Contact extraction *)

Lemma search_from_sound ic r prev s m :
  search_from ic r prev s = Some m ->
  exists pre post, s = pre ++ m ++ post /\ lang ic r m.
Proof.
  revert prev. induction s as [|c s IH]; intros prev; cbn [search_from].
  - destruct (match_len ic r (prev, [])) as [n|] eqn:E; [|discriminate].
    intros [= <-]. exists [], (drop n []). split.
    + cbn [app]. symmetry. apply take_drop.
    + exact (match_len_sound ic r prev [] n E).
  - destruct (match_len ic r (prev, c :: s)) as [n|] eqn:E.
    + intros [= <-]. exists [], (drop n (c :: s)). split.
      * cbn [app]. symmetry. apply take_drop.
      * exact (match_len_sound ic r prev (c :: s) n E).
    + intros H. destruct (IH _ H) as (pre & post & -> & L).
      exists (c :: pre), post. split; [reflexivity|exact L].
Qed.

Lemma lang_rep_class ic items lo hi w :
  lang ic (Rep (Chars items) lo hi) w ->
  (lo <= length w)%nat
  /\ match hi with Some h => (length w <= h)%nat | None => True end
  /\ Forall (fun c => class_match ic items c = true) w.
Proof.
  intros (ws & -> & Lws & Hlo & Hhi).
  assert (H : length (concat ws) = length ws
              /\ Forall (fun c => class_match ic items c = true) (concat ws)).
  { clear Hlo Hhi. induction Lws as [|w ws (c & -> & Hc) _ [IHl IHf]].
    - split; [reflexivity|constructor].
    - cbn [concat app length]. split; [congruence|constructor; assumption]. }
  destruct H as [-> Hf]. repeat split; assumption.
Qed.

Lemma literal_class a c : class_match false [ILit a] c = true -> c = a.
Proof.
  unfold class_match. cbn [existsb]. unfold item_match, item_raw.
  cbn [andb orb]. rewrite !orb_false_r. intros H.
  apply bool_decide_eq_true_1 in H. symmetry. exact H.
Qed.

Lemma address_class c :
  class_match false [IWord; ILit "."; ILit "-"] c = true -> address_char c = true.
Proof.
  unfold class_match, address_char. cbn [existsb]. unfold item_match, item_raw.
  cbn [andb orb]. rewrite !orb_false_r.
  destruct (is_word c); [reflexivity|]. cbn [orb].
  intros H. apply orb_prop in H as [H|H]; apply bool_decide_eq_true_1 in H; subst c; reflexivity.
Qed.

Lemma lang_email m :
  lang false email_pattern m ->
  exists local domain, m = local ++ "@"%char :: domain
    /\ local <> [] /\ domain <> []
    /\ Forall (fun c => address_char c = true) local
    /\ Forall (fun c => address_char c = true) domain.
Proof.
  unfold email_pattern, Lit, plus. cbn [seq_of foldr map str list_ascii_of_string lang].
  intros (a & m1 & -> & La & at1 & m2 & -> & (c1 & e1 & -> & (c & -> & Hc) & ->)
          & b & e2 & -> & Lb & ->).
  apply (lang_rep_class false _ 1 None) in La as (Hal & _ & Haf).
  apply (lang_rep_class false _ 1 None) in Lb as (Hbl & _ & Hbf).
  apply literal_class in Hc. subst c.
  exists a, b. rewrite !app_nil_r. split; [reflexivity|].
  split; [intros ->; cbn in Hal; lia|].
  split; [intros ->; cbn in Hbl; lia|].
  split; (eapply Forall_impl; [eassumption|]; intros x; apply address_class).
Qed.

Lemma extract_email_cases t :
  (re_search false email_pattern t = None /\ extract_email t = str "Not Found")
  \/ (exists pre local domain post,
        t = pre ++ local ++ "@"%char :: domain ++ post
        /\ re_search false email_pattern t = Some (local ++ "@"%char :: domain)
        /\ extract_email t = local ++ "@"%char :: domain
        /\ local <> [] /\ domain <> []
        /\ Forall (fun c => address_char c = true) local
        /\ Forall (fun c => address_char c = true) domain).
Proof.
  unfold extract_email.
  destruct (re_search false email_pattern t) as [m|] eqn:E; [right|left; split; reflexivity].
  destruct (search_from_sound _ _ _ _ _ E) as (pre & post & -> & L).
  destruct (lang_email m L) as (local & domain & -> & H).
  exists pre, local, domain, post. rewrite <- !app_assoc. cbn [app].
  split; [reflexivity|]. split; [reflexivity|]. split; [reflexivity|exact H].
Qed.

Lemma extract_email_nonempty t : extract_email t <> [].
Proof.
  destruct (extract_email_cases t) as [[_ ->]|(pre & l & d & post & _ & _ & -> & _)].
  - discriminate.
  - destruct l; discriminate.
Qed.

Lemma py_or_email t : py_or (extract_email t) (extract_phone t) = extract_email t.
Proof.
  pose proof (extract_email_nonempty t) as H.
  unfold py_or. destruct (extract_email t); [contradiction|reflexivity].
Qed.

(** X3.  [extract_email] returns "Not Found" when the address pattern
    matches nowhere; otherwise it returns a part of the text of the form
    local@domain, both sides non-empty runs of [\w], dots and hyphens. *)
Theorem extract_email_shape (t : text) :
  (found (re_search false email_pattern t) = false
   /\ extract_email t = str "Not Found")
  \/ (found (re_search false email_pattern t) = true
      /\ exists pre local domain post,
        t = pre ++ local ++ "@"%char :: domain ++ post
        /\ extract_email t = local ++ "@"%char :: domain
        /\ local <> [] /\ domain <> []
        /\ Forall (fun c => address_char c = true) local
        /\ Forall (fun c => address_char c = true) domain).
Proof.
  destruct (extract_email_cases t) as [[E ->]|(pre & l & d & post & Ht & E & Hm & H)].
  - left. rewrite E. split; reflexivity.
  - right. rewrite E. split; [reflexivity|].
    exists pre, l, d, post. split; [exact Ht|]. split; [exact Hm|exact H].
Qed.

(** X4.  [extract_email] never returns the empty string, so in
    [extract_email(text) or extract_phone(text)], the contact that the
    routes store, the phone number is never used. *)
Theorem stored_contact_is_email (t : text) :
  extract_email t <> []
  /\ py_or (extract_email t) (extract_phone t) = extract_email t.
Proof. split; [apply extract_email_nonempty|apply py_or_email]. Qed.

Lemma lang_phone_number m :
  lang false phone_number_pattern m ->
  exists sign digits, m = sign ++ digits
    /\ (sign = [] \/ sign = ["+"%char])
    /\ (10 <= length digits <= 13)%nat
    /\ Forall (fun c => is_decimal c = true) digits.
Proof.
  unfold phone_number_pattern, Lit, opt, digit.
  cbn [seq_of foldr map str list_ascii_of_string lang].
  intros (sg & m1 & -> & (ws & -> & Lws & _ & Hws) & ds & e & -> & Lds & ->).
  apply (lang_rep_class false _ 10 (Some 13)) in Lds as (Hlo & Hhi & Hf).
  exists (concat ws), ds. rewrite app_nil_r. split; [reflexivity|].
  split; [|split; [lia|]].
  - destruct Lws as [|w ws (w1 & w2 & -> & (c & -> & Hc) & ->) Lws]; [left; reflexivity|].
    destruct ws; [|cbn in Hws; lia].
    apply literal_class in Hc. subst c. right. reflexivity.
  - eapply Forall_impl; [exact Hf|]. intros x.
    unfold class_match. cbn [existsb]. unfold item_match, item_raw.
    cbn [andb orb]. rewrite !orb_false_r. tauto.
Qed.

Lemma extract_phone_cases (t : text) :
  extract_phone t = str "Not Found"
  \/ exists pre sign digits post,
       t = pre ++ sign ++ digits ++ post
       /\ extract_phone t = sign ++ digits
       /\ (sign = [] \/ sign = ["+"%char])
       /\ (10 <= length digits <= 13)%nat
       /\ Forall (fun c => is_decimal c = true) digits.
Proof.
  unfold extract_phone.
  destruct (re_search false phone_number_pattern t) as [m|] eqn:E;
    [right|left; reflexivity].
  destruct (search_from_sound _ _ _ _ _ E) as (pre & post & -> & L).
  destruct (lang_phone_number m L) as (sg & ds & -> & H).
  exists pre, sg, ds, post. rewrite <- !app_assoc.
  split; [reflexivity|]. split; [reflexivity|exact H].
Qed.

(** X5.  [extract_phone] returns "Not Found" or a part of the text made
    of an optional "+" and 10 to 13 decimal digits. *)
Theorem extract_phone_shape (t : text) :
  extract_phone t = str "Not Found"
  \/ exists pre sign digits post,
       t = pre ++ sign ++ digits ++ post
       /\ extract_phone t = sign ++ digits
       /\ (sign = [] \/ sign = ["+"%char])
       /\ (10 <= length digits <= 13)%nat
       /\ Forall (fun c => is_decimal c = true) digits.
Proof. exact (extract_phone_cases t). Qed.

Lemma digit_class c : is_decimal c = true -> class_match false [IDigit] c = true.
Proof.
  intros H. unfold class_match. cbn [existsb]. unfold item_match, item_raw.
  rewrite H. reflexivity.
Qed.

Lemma digit_or_separator_class c :
  is_decimal c = true ->
  class_match false [IDigit; ILit " "; ILit "-"] c = true.
Proof.
  intros H. unfold class_match. cbn [existsb]. unfold item_match at 1, item_raw.
  rewrite H. reflexivity.
Qed.

(** Ten digits in a row are a phone number for [check_contact_info]. *)
Lemma phone_pattern_at_digits p digits post :
  (10 <= length digits)%nat ->
  Forall (fun c => is_decimal c = true) digits ->
  exists n, match_len false phone_pattern (p, digits ++ post) = Some n.
Proof.
  intros Hl Hd.
  do 10 (destruct digits as [|? digits]; [cbn in Hl; lia|]).
  repeat match goal with
         | H : Forall _ (_ :: _) |- _ => apply Forall_cons in H as [? H]
         end.
  eapply match_len_in.
  unfold phone_pattern. cbn [seq_of foldr app].
  eapply run_Cat_in; [apply run_Rep_stop|].
  eapply run_Cat_in; [apply run_Chars_in, digit_class; assumption|].
  eapply run_Cat_in.
  { cbn [run snd length].
    do 8 (eapply rep_loop_step;
          [discriminate|apply run_Chars_in, digit_or_separator_class; assumption|]).
    apply rep_loop_stop. }
  eapply run_Cat_in; [apply run_Chars_in, digit_class; assumption|].
  apply run_Eps_in.
Qed.

(** X6.  When [extract_phone] finds a number, the phone pattern of
    [check_contact_info] matches too and the contact sub-score is at least
    1/3. *)
Theorem extracted_phone_counts (t : text) :
  extract_phone t <> str "Not Found" ->
  found (re_search false phone_pattern t) = true
  /\ exists ci, check_contact_info t = Ok ci /\ (1 # 3 <= ci)%Q.
Proof.
  intros H.
  assert (Hf : found (re_search false phone_pattern t) = true).
  { destruct (extract_phone_cases t)
      as [E|(pre & sg & ds & post & -> & _ & _ & [Hl _] & Hd)]; [contradiction|].
    destruct (phone_pattern_at_digits (last_before None (pre ++ sg)) ds post Hl Hd)
      as [n Hn].
    rewrite app_assoc. exact (search_from_found _ _ _ _ _ _ Hn). }
  split; [exact Hf|].
  unfold check_contact_info. rewrite Hf.
  destruct (found (re_search false email_pattern t)),
    (found (re_search false profile_pattern t));
    (eexists; split; [reflexivity|]; unfold Qle; simpl; lia).
Qed.

(** X6 at the text "call 9876543210". *)
Lemma extracted_phone_counts_witness :
  found (re_search false phone_pattern (str "call 9876543210")) = true
  /\ exists ci, check_contact_info (str "call 9876543210") = Ok ci
       /\ (1 # 3 <= ci)%Q.
Proof.
  apply extracted_phone_counts. vm_compute. discriminate.
Defined.
(** ** The match scorer, further *)

Lemma split_acc_nil acc s :
  split_acc acc s = [] <-> acc = [] /\ forallb py_isspace s = true.
Proof.
  revert acc. induction s as [|c s IH]; intros acc; cbn [split_acc forallb].
  - destruct acc; split; try tauto; try discriminate.
    intros [H _]. discriminate H.
  - destruct (py_isspace c); cbn [andb].
    + destruct acc as [|a acc].
      * rewrite IH. tauto.
      * split; [discriminate|]. intros [H _]. discriminate H.
    + rewrite IH. split; [intros [H _]; discriminate H|intros [_ H]; discriminate H].
Qed.

Lemma forallb_isspace_lower s :
  forallb py_isspace (py_lower s) = forallb py_isspace s.
Proof.
  induction s as [|c s IH]; [reflexivity|].
  cbn [py_lower map forallb]. rewrite isspace_lower. f_equal. exact IH.
Qed.

Lemma token_set_empty t : token_set t = ∅ <-> forallb py_isspace t = true.
Proof.
  unfold token_set. rewrite <- forallb_isspace_lower.
  destruct (py_split (py_lower t)) as [|w ws] eqn:E.
  - unfold py_split in E. apply split_acc_nil in E as [_ E].
    split; [intros _; exact E|reflexivity].
  - split.
    + intros H. exfalso.
      assert (Hw : w ∈ (list_to_set (w :: ws) : gset text)) by set_solver.
      rewrite H in Hw. set_solver.
    + intros H. assert (E' : py_split (py_lower t) = []).
      { apply split_acc_nil. split; [reflexivity|exact H]. }
      congruence.
Qed.

(** X7.  The match scorer raises [ZeroDivisionError] when the job
    description holds only whitespace (the empty text included), and
    returns a score for every other job description. *)
Theorem match_score_raises_iff_blank (resume_text job_desc_text : text) :
  (forallb py_isspace job_desc_text = true
   -> calculate_match_score resume_text job_desc_text = Raise ZeroDivisionError)
  /\ (forallb py_isspace job_desc_text = false
      -> exists q, calculate_match_score resume_text job_desc_text = Ok q).
Proof.
  split; intros H.
  - apply token_set_empty in H. unfold calculate_match_score. rewrite H.
    reflexivity.
  - eexists. apply match_score_value. intros E.
    apply token_set_empty in E. congruence.
Qed.

(** X7 at the job descriptions "  " and " sql ". *)
Lemma match_score_raises_iff_blank_witness :
  calculate_match_score (str "python") (str "  ") = Raise ZeroDivisionError
  /\ exists q, calculate_match_score (str "python") (str " sql ") = Ok q.
Proof.
  split.
  - apply match_score_raises_iff_blank. reflexivity.
  - apply match_score_raises_iff_blank. reflexivity.
Defined.

Lemma of_nat_pos (n : nat) : (0 < n)%nat -> (0 < inject_Z (Z.of_nat n))%Q.
Proof. intros H. unfold Qlt, inject_Z; simpl. lia. Qed.

Lemma score_of_sizes_full (n : nat) :
  (0 < n)%nat -> (score_of_sizes n n == 100)%Q.
Proof.
  intros H. pose proof (of_nat_pos n H) as Hp. unfold score_of_sizes.
  rewrite (binary64_eq (inject_Z (Z.of_nat n) / inject_Z (Z.of_nat n)) 1)
    by (unfold Qdiv; rewrite Qmult_inv_r by lra; reflexivity).
  vm_compute. reflexivity.
Qed.

Lemma score_of_sizes_none (n : nat) :
  (0 < n)%nat -> (score_of_sizes 0 n == 0)%Q.
Proof.
  intros H. unfold score_of_sizes.
  rewrite (binary64_eq (inject_Z (Z.of_nat 0) / inject_Z (Z.of_nat n)) 0)
    by (unfold Qdiv; change (inject_Z (Z.of_nat 0)) with 0%Q;
        rewrite Qmult_0_l; reflexivity).
  vm_compute. reflexivity.
Qed.

Lemma score_of_sizes_mono (c c' n : nat) :
  (c <= c')%nat -> (0 < n)%nat ->
  (score_of_sizes c n <= score_of_sizes c' n)%Q.
Proof.
  intros Hc Hn. pose proof (of_nat_pos n Hn) as Hp. unfold score_of_sizes.
  assert (P0 : (0 <= inject_Z (Z.of_nat c))%Q)
    by (unfold Qle, inject_Z; simpl; lia).
  assert (Hle : (inject_Z (Z.of_nat c) <= inject_Z (Z.of_nat c'))%Q)
    by (unfold Qle, inject_Z; simpl; lia).
  assert (Hx : (0 <= inject_Z (Z.of_nat c) / inject_Z (Z.of_nat n))%Q)
    by (apply Qle_shift_div_l; lra).
  assert (Hxy : (inject_Z (Z.of_nat c) / inject_Z (Z.of_nat n)
                 <= inject_Z (Z.of_nat c') / inject_Z (Z.of_nat n))%Q).
  { unfold Qdiv. apply Qmult_le_compat_r;
      [exact Hle|apply Qlt_le_weak, Qinv_lt_0_compat, Hp]. }
  pose proof (binary64_nonneg _ Hx) as Hr.
  pose proof (binary64_mono _ _ Hx Hxy) as Hm.
  unfold float_mul.
  apply py_round2_mono; [apply binary64_nonneg; lra|].
  apply binary64_mono; lra.
Qed.

Lemma full_coverage_value (resume_text job_desc_text : text) :
  token_set job_desc_text ≠ ∅ ->
  token_set job_desc_text ⊆ token_set resume_text ->
  returns (calculate_match_score resume_text job_desc_text) 100.
Proof.
  intros Hne Hsub. eexists. split; [apply match_score_value, Hne|].
  rewrite (comm_L (∩)), (subseteq_intersection_1_L _ _ Hsub).
  apply score_of_sizes_full, (token_sizes ∅), Hne.
Qed.

(** X8.  When every token of the job description is a token of the
    resume, the match score is 100. *)
Theorem match_score_full_coverage (resume_text job_desc_text : text) :
  token_set job_desc_text ≠ ∅ ->
  token_set job_desc_text ⊆ token_set resume_text ->
  returns (calculate_match_score resume_text job_desc_text) 100.
Proof. exact (full_coverage_value resume_text job_desc_text). Qed.

(** X8 at a resume that holds both words of "python SQL". *)
Lemma match_score_full_coverage_witness :
  returns (calculate_match_score (str "Senior Python and SQL developer")
             (str "python SQL")) 100.
Proof.
  apply match_score_full_coverage.
  - apply (bool_decide_eq_false_1 _). vm_compute. reflexivity.
  - apply (bool_decide_eq_true_1 _). vm_compute. reflexivity.
Defined.

Lemma no_overlap_value (resume_text job_desc_text : text) :
  token_set job_desc_text ≠ ∅ ->
  token_set resume_text ∩ token_set job_desc_text = ∅ ->
  returns (calculate_match_score resume_text job_desc_text) 0.
Proof.
  intros Hne Hdis. eexists. split; [apply match_score_value, Hne|].
  rewrite Hdis, size_empty.
  apply score_of_sizes_none, (token_sizes ∅), Hne.
Qed.

(** X9.  When the resume shares no token with the job description, the
    match score is 0. *)
Theorem match_score_no_overlap (resume_text job_desc_text : text) :
  token_set job_desc_text ≠ ∅ ->
  token_set resume_text ∩ token_set job_desc_text = ∅ ->
  returns (calculate_match_score resume_text job_desc_text) 0.
Proof. exact (no_overlap_value resume_text job_desc_text). Qed.

(** X9 at "java developer" against "python SQL". *)
Lemma match_score_no_overlap_witness :
  returns (calculate_match_score (str "java developer") (str "python SQL")) 0.
Proof.
  apply match_score_no_overlap.
  - apply (bool_decide_eq_false_1 _). vm_compute. reflexivity.
  - apply (bool_decide_eq_true_1 _). vm_compute. reflexivity.
Defined.

(** X10.  A resume that holds every token of another resume scores at
    least as high against the same job description. *)
Theorem match_score_monotone (r r' j : text) :
  token_set j ≠ ∅ ->
  token_set r ⊆ token_set r' ->
  exists q q', calculate_match_score r j = Ok q
    /\ calculate_match_score r' j = Ok q' /\ (q <= q')%Q.
Proof.
  intros Hne Hsub. do 2 eexists.
  split; [apply match_score_value, Hne|].
  split; [apply match_score_value, Hne|].
  apply score_of_sizes_mono; [|apply (token_sizes ∅), Hne].
  apply subseteq_size, intersection_mono_r, Hsub.
Qed.

(** X10 at "python" and "python and sql" against "python sql". *)
Lemma match_score_monotone_witness :
  exists q q', calculate_match_score (str "python") (str "python sql") = Ok q
    /\ calculate_match_score (str "python and sql") (str "python sql") = Ok q'
    /\ (q <= q')%Q.
Proof.
  apply match_score_monotone.
  - apply (bool_decide_eq_false_1 _). vm_compute. reflexivity.
  - apply (bool_decide_eq_true_1 _). vm_compute. reflexivity.
Defined.

(** ** The ATS scorer, further *)

Lemma in_by_eqb (x : string) (l : list string) :
  existsb (String.eqb x) l = true -> In x l.
Proof.
  intros H. apply existsb_exists in H as (y & Hy & E).
  apply String.eqb_eq in E. subst y. exact Hy.
Qed.

(** The lines before the length line: the tier line and at most five
    advice lines, none of them a length line. *)
Lemma feedback_core stop score t :
  exists core,
    generate_feedback stop score t
    = Ok (if word_count t <? 400 then core ++ [too_short_line]
          else if 800 <? word_count t then core ++ [too_long_line]
          else core)
    /\ ~ In too_short_line core /\ ~ In too_long_line core
    /\ (1 <= length core <= 6)%nat.
Proof.
  destruct (keyword_density_unit stop t) as (kd & Hkd & _).
  destruct (action_verbs_unit t) as (av & Hav & _).
  destruct (quantifiable_unit t) as (qr & Hqr & _).
  destruct (contact_info_unit t) as (ci & Hci & _).
  unfold generate_feedback. rewrite Hkd, Hav, Hqr, Hci.
  cbn [mbind result_bind mret result_ret].
  destruct (Qltb score 60), (Qltb score 80), (Qltb kd 0.5), (Qltb av 0.5),
    (Qltb qr 0.5), (Qltb (evaluate_structure t) 0.7), (Qltb ci 1);
    (eexists; split; [reflexivity|];
     split; [apply not_in_by_eqb; vm_compute; reflexivity|];
     split; [apply not_in_by_eqb; vm_compute; reflexivity|];
     cbn [length app]; lia).
Qed.

(** X11.  For every score and text [generate_feedback] returns between 1
    and 7 lines; the "too short" line is among them exactly when the text
    has fewer than 400 words and the "too long" line exactly when it has
    more than 800. *)
Theorem feedback_length_line stop score t :
  exists fb, generate_feedback stop score t = Ok fb
    /\ (In too_short_line fb <-> (word_count t < 400)%nat)
    /\ (In too_long_line fb <-> (800 < word_count t)%nat)
    /\ (1 <= length fb <= 7)%nat.
Proof.
  destruct (feedback_core stop score t) as (core & -> & Hs & Hl & Hn).
  assert (Hne : too_short_line <> too_long_line) by discriminate.
  eexists. split; [reflexivity|].
  destruct (Nat.ltb_spec (word_count t) 400) as [H4|H4];
    [|destruct (Nat.ltb_spec 800 (word_count t)) as [H8|H8]].
  - split; [|split].
    + split; [intros _; exact H4|intros _; apply in_app_iff; right; left; reflexivity].
    + split; [|lia]. intros H. apply in_app_iff in H as [H|[H|[]]]; [contradiction|congruence].
    + rewrite length_app. cbn [length]. lia.
  - split; [|split].
    + split; [|lia]. intros H. apply in_app_iff in H as [H|[H|[]]]; [contradiction|congruence].
    + split; [intros _; exact H8|intros _; apply in_app_iff; right; left; reflexivity].
    + rewrite length_app. cbn [length]. lia.
  - split; [|split].
    + split; [contradiction|lia].
    + split; [contradiction|lia].
    + lia.
Qed.

Lemma contains_lower needle pre w post :
  py_lower w = needle ->
  py_contains needle (py_lower (pre ++ w ++ post)) = true.
Proof.
  intros <-. unfold py_lower. rewrite !map_app. apply py_contains_app.
Qed.

(** X13.  An action verb counts wherever its letters occur, in any case
    and also inside a longer word: a text that holds one of the ten verbs
    has an action-verb sub-score of at least 1/5. *)
Theorem action_verb_inside_word (verb : string) (pre w post : text) :
  In verb ACTION_VERBS ->
  py_lower w = str verb ->
  exists av, count_action_verbs (pre ++ w ++ post) = Ok av /\ (1 # 5 <= av)%Q.
Proof.
  intros Hin Hw. unfold count_action_verbs.
  match goal with
  | |- context [len ?l] => assert (Hl : (1 <= length l)%nat); [|set (vs := l) in *]
  end.
  { assert (Hv : verb ∈
      filter (fun verb => py_contains (str verb)
                (py_lower (pre ++ w ++ post)) = true) ACTION_VERBS).
    { apply list_elem_of_filter. split.
      - apply contains_lower, Hw.
      - apply list_elem_of_In, Hin. }
    destruct (filter _ ACTION_VERBS) as [|v vs]; [|cbn [length]; lia].
    apply elem_of_nil in Hv. contradiction. }
  destruct (ratio_lower (len vs) 5 (len_ge_1 vs Hl) ltac:(lra)) as (q & Hq & Bq).
  exists q. split; [exact Hq|].
  assert ((1 / 5 == 1 # 5)%Q) by reflexivity. lra.
Qed.

(** X13 at "knowLEDge", which holds "led". *)
Lemma action_verb_inside_word_witness :
  exists av, count_action_verbs (str "know" ++ str "LED" ++ str "ge") = Ok av
    /\ (1 # 5 <= av)%Q.
Proof.
  apply (action_verb_inside_word "led").
  - vm_compute. tauto.
  - reflexivity.
Defined.

(** X11 at a text of ten words. *)
Lemma feedback_length_line_witness :
  exists fb, generate_feedback [] 0 (words_text 10) = Ok fb
    /\ In too_short_line fb.
Proof.
  destruct (feedback_length_line [] 0 (words_text 10)) as (fb & H & Hs & _).
  exists fb. split; [exact H|]. apply Hs. vm_compute. lia.
Defined.

(** ** The extracted name *)

Lemma space_chars c :
  py_isspace c = true ->
  lower_char c = c /\ upper_char c = c /\ is_cased c = false.
Proof.
  destruct c as [[] [] [] [] [] [] [] []]; cbn; intros H;
    first [discriminate H | repeat split].
Qed.

Lemma capital_chars c :
  in_range 65 90 c = true ->
  upper_char c = c /\ is_cased c = true /\ py_isspace c = false
  /\ py_isspace (lower_char c) = false
  /\ in_range 97 122 (lower_char c) = true
  /\ upper_char (lower_char c) = c.
Proof.
  destruct c as [[] [] [] [] [] [] [] []]; cbn; intros H;
    first [discriminate H | repeat split].
Qed.

Lemma title_word_snoc a w c :
  title_word ((a :: w) ++ [c]) = title_word (a :: w) ++ [lower_char c].
Proof.
  cbn [app title_word]. unfold py_lower. rewrite map_app. reflexivity.
Qed.

(** [title] and [split] on a text of capitals and whitespace: the words
    are the same, each in title case. *)
Lemma split_acc_title s :
  Forall (fun c => capital_or_space c = true) s ->
  forall acc,
    Forall (fun c => in_range 65 90 c = true) acc ->
    split_acc (rev (title_word (rev acc)))
      (title_from (negb (bool_decide (acc = []))) s)
    = map title_word (split_acc acc s).
Proof.
  assert (Hnil : Forall (fun c => in_range 65 90 c = true) []) by constructor.
  assert (IHnil : forall s',
    (forall acc, Forall (fun c => in_range 65 90 c = true) acc ->
       split_acc (rev (title_word (rev acc)))
         (title_from (negb (bool_decide (acc = []))) s')
       = map title_word (split_acc acc s')) ->
    split_acc [] (title_from false s') = map title_word (split_acc [] s')).
  { intros s' IH. exact (IH [] Hnil). }
  induction 1 as [|c s Hc _ IH]; intros acc Hacc.
  - cbn [title_from split_acc]. destruct acc as [|a acc]; [reflexivity|].
    destruct (rev (title_word (rev (a :: acc)))) as [|b bs] eqn:E.
    { apply (f_equal (@rev ascii)) in E. rewrite rev_involutive in E.
      cbn [rev] in E. destruct (rev acc); discriminate E. }
    rewrite <- E, rev_involutive. reflexivity.
  - unfold capital_or_space in Hc. cbn [title_from].
    destruct (py_isspace c) eqn:Hsp.
    + destruct (space_chars c Hsp) as (El & Eu & Ecased).
      assert (Et : (if negb (bool_decide (acc = [])) then lower_char c
                    else upper_char c) = c)
        by (destruct (negb _); assumption).
      rewrite Et, Ecased. cbn [split_acc]. rewrite Hsp.
      destruct acc as [|a acc].
      * exact (IHnil s IH).
      * destruct (rev (title_word (rev (a :: acc)))) as [|b bs] eqn:E.
        { apply (f_equal (@rev ascii)) in E. rewrite rev_involutive in E.
          cbn [rev] in E. destruct (rev acc); discriminate E. }
        rewrite <- E, rev_involutive. cbn [map].
        f_equal. exact (IHnil s IH).
    + rewrite orb_false_r in Hc.
      destruct (capital_chars c Hc) as (Eu & Ecased & _ & Hls & _ & _).
      rewrite Ecased. cbn [split_acc]. rewrite Hsp.
      specialize (IH (c :: acc) ltac:(constructor; assumption)).
      rewrite bool_decide_eq_false_2 in IH by discriminate. cbn [negb] in IH.
      rewrite <- IH. destruct acc as [|a acc].
      * cbn. rewrite Eu, Hsp. reflexivity.
      * rewrite bool_decide_eq_false_2 by discriminate. cbn [negb split_acc].
        rewrite Hls. f_equal.
        change (rev (c :: a :: acc)) with (rev (a :: acc) ++ [c]).
        destruct (rev (a :: acc)) as [|b bs] eqn:E.
        { apply (f_equal (@length ascii)) in E. rewrite length_rev in E.
          discriminate E. }
        rewrite title_word_snoc, rev_app_distr. reflexivity.
Qed.

Lemma py_split_title m :
  Forall (fun c => capital_or_space c = true) m ->
  py_split (py_title m) = map title_word (py_split m).
Proof.
  intros H. apply (split_acc_title m H []). constructor.
Qed.

Lemma forallb_capital_lower w :
  forallb (in_range 65 90) w = true ->
  forallb (in_range 97 122) (py_lower w) = true /\ py_upper (py_lower w) = w.
Proof.
  induction w as [|c w IH]; [split; reflexivity|].
  cbn [forallb py_lower py_upper map]. intros H.
  apply andb_prop in H as [Hc Hw].
  destruct (capital_chars c Hc) as (_ & _ & _ & _ & Hl & Hu).
  destruct (IH Hw) as [IH1 IH2]. rewrite Hl, Hu. split; [exact IH1|].
  f_equal. exact IH2.
Qed.

Lemma title_word_caps w :
  caps_word w = true ->
  titled_word (title_word w) = true /\ py_upper (title_word w) = w.
Proof.
  unfold caps_word. intros H. apply andb_prop in H as [Hl Hf].
  destruct w as [|c w]; [discriminate Hl|].
  cbn [forallb] in Hf. apply andb_prop in Hf as [Hc Hw].
  destruct (forallb_capital_lower w Hw) as [H1 H2].
  destruct (capital_chars c Hc) as (Hu & _).
  cbn [title_word titled_word py_upper map]. split.
  - rewrite Hc, H1. unfold py_lower. rewrite length_map.
    cbn [length] in Hl. apply Nat.leb_le in Hl.
    replace (1 <=? length w) with true by (symmetry; apply Nat.leb_le; lia).
    reflexivity.
  - rewrite Hu. f_equal. exact H2.
Qed.

Lemma first_name_cases matches :
  (forall m, In m matches -> has_digit m = false) ->
  first_name matches = str "Not Found"
  \/ exists m, In m matches /\ not_blacklisted m = true
       /\ first_name matches = py_title m.
Proof.
  intros H. rewrite (first_name_find matches H).
  destruct (find not_blacklisted matches) as [m|] eqn:E; [right|left; reflexivity].
  apply find_some in E as [Hin Hnb]. exists m. repeat split; assumption.
Qed.

Lemma forallb_map {A B} (f : A -> B) (p : B -> bool) l :
  forallb p (map f l) = forallb (fun x => p (f x)) l.
Proof. induction l as [|x l IH]; [reflexivity|]. cbn. rewrite IH. reflexivity. Qed.

Lemma name_candidates_sound t m :
  In m (re_findall false name_pattern t) ->
  name_candidate m = true
  /\ Forall (fun c => capital_or_space c = true) m
  /\ has_digit m = false.
Proof.
  intros Hin.
  pose proof (findall_from_sound false name_pattern t 0%nat None m Hin) as HL.
  pose proof (lang_within false _ name_pattern name_pattern_classes m HL) as HF.
  split; [exact (name_pattern_candidate m HL)|].
  split; [exact HF|]. unfold has_digit, re_search.
  rewrite (no_digit_search m None HF). reflexivity.
Qed.

(** X14.  Whatever the text, the result of [extract_name] (the sentinel
    "Not Found" included) is made of two to four words, each a letter A-Z
    followed by one or more letters a-z, and no word of it is a
    blacklisted heading when put in upper case. *)
Theorem extract_name_titled (t : text) :
  titled_name (extract_name t) = true
  /\ forall w, In w (py_split (extract_name t)) -> py_upper w ∉ blacklist.
Proof.
  pose proof (name_candidates_sound t) as Hm.
  unfold extract_name.
  destruct (first_name_cases (re_findall false name_pattern t))
    as [->|(m & Hin & Hnb & ->)]; [intros m Hin; apply Hm, Hin| |].
  - split; [reflexivity|]. intros w Hw. vm_compute in Hw.
    destruct Hw as [<-|[<-|[]]]; apply (bool_decide_eq_true_1 _);
      vm_compute; reflexivity.
  - destruct (Hm m Hin) as (Hc & HF & _).
    unfold name_candidate in Hc. cbv zeta in Hc.
    apply andb_prop in Hc as [Hlen Hcaps].
    rewrite forallb_forall in Hcaps.
    unfold titled_name. cbv zeta. rewrite (py_split_title m HF). split.
    + rewrite length_map, Hlen. cbn [andb]. rewrite forallb_map.
      apply forallb_forall. intros W HW. apply title_word_caps, Hcaps, HW.
    + intros w Hw. apply in_map_iff in Hw as (W & <- & HW).
      destruct (title_word_caps W (Hcaps W HW)) as [_ ->].
      unfold not_blacklisted in Hnb. rewrite forallb_forall in Hnb.
      apply (bool_decide_eq_true_1 _), Hnb, HW.
Qed.

(** X14 at the text "RESUME of JANE DOE": the result holds "Jane". *)
Lemma extract_name_titled_witness :
  py_upper (str "Jane") ∉ blacklist.
Proof.
  apply (extract_name_titled (str "RESUME of JANE DOE")).
  vm_compute. left. reflexivity.
Defined.

(** ** The database and the upload routes *)

Lemma update_analytics_absent field db :
  app_analytics db !! 1%Z = None -> update_analytics field db = db.
Proof.
  intros H. destruct db as [rs ms an]. unfold update_analytics.
  cbn [resumes job_matches app_analytics] in *.
  rewrite (alter_id' _ _ _ H). reflexivity.
Qed.

Lemma Qltb_lt a b : Qltb a b = true <-> (a < b)%Q.
Proof.
  unfold Qltb. rewrite Qlt_alt.
  destruct (a ?= b)%Q; split; congruence.
Qed.

Lemma Qltb_ge a b : (b <= a)%Q -> Qltb a b = false.
Proof.
  intros H. destruct (Qltb a b) eqn:E; [|reflexivity].
  apply Qltb_lt in E. lra.
Qed.

Section RouteFacts.
Variable stop_list : list text.
Variable pdf_pages : text -> option (list text).
Variable docx_process : text -> option text.
Variable format_number : Q -> string.
Variable exn_str : exn -> string.

Lemma allowed_file_nonempty name : allowed_file name = true -> name <> [].
Proof. intros H ->. discriminate H. Qed.

(** The scorer and the feedback of the ATS check never raise. *)
Lemma ats_check_ok t :
  exists score fb,
    (score ← calculate_ats_score stop_list t;
     feedback ← generate_feedback stop_list score t;
     mret (score, feedback)) = Ok (score, fb)
    /\ calculate_ats_score stop_list t = Ok score
    /\ generate_feedback stop_list score t = Ok fb
    /\ (0 <= score <= 100)%Q.
Proof.
  destruct (ats_score_decompose stop_list t)
    as (kd & av & qr & ci & _ & Bkd & _ & Bav & _ & Bqr & _ & Bci & Hs).
  pose proof (structure_unit t) as Bst. pose proof (length_unit t) as Bln.
  match type of Hs with _ = Ok ?v => set (s := v) in * end.
  destruct (feedback_core stop_list s t) as (core & Hfb & _).
  exists s. eexists. rewrite Hs. cbn [mbind result_bind]. rewrite Hfb.
  split; [reflexivity|]. split; [reflexivity|]. split; [reflexivity|].
  subst s. apply py_min_bounds; lra.
Qed.

(** What [ats_checker] answers to a POST of an allowed file. *)
Lemma ats_checker_reply req now db file :
  method req = POST ->
  files req !! "resume"%string = Some file ->
  allowed_file (filename file) = true ->
  let t := extract_text pdf_pages docx_process file in
  exists score fb,
    calculate_ats_score stop_list t = Ok score
    /\ generate_feedback stop_list score t = Ok fb
    /\ (0 <= score <= 100)%Q
    /\ ats_checker stop_list pdf_pages docx_process exn_str req now db
       = {| resp :=
              Template "ats_results.html"
                [ ("score", VNumber (py_round1 score));
                  ("feedback", VLines fb);
                  ("filename", VText (filename file)) ];
            flashed := [];
            store :=
              update_analytics AtsChecks
                (insert_resume
                   {| resume_filename := filename file;
                      resume_ats_score := score;
                      resume_upload_date := now;
                      resume_contact_info := extract_email t |} db) |}.
Proof.
  intros Hm Hf Ha t.
  destruct (ats_check_ok t) as (score & fb & Hrun & Hs & Hfb & Bs).
  exists score, fb. split; [exact Hs|].
  split; [exact Hfb|]. split; [exact Bs|].
  unfold ats_checker. rewrite Hm, Hf.
  rewrite bool_decide_eq_false_2 by (apply allowed_file_nonempty, Ha).
  rewrite Ha. fold t. rewrite Hrun, (py_or_email t). reflexivity.
Qed.

(** X16.  A POST of an allowed file to the ATS check never gives the
    error response: it shows the results page with a score between 0 and
    100, stores one row with that score and with the result of
    [extract_email] as contact, and calls [update_analytics] once. *)
Theorem ats_checker_accepts req now db file :
  method req = POST ->
  files req !! "resume"%string = Some file ->
  allowed_file (filename file) = true ->
  let t := extract_text pdf_pages docx_process file in
  exists score fb,
    calculate_ats_score stop_list t = Ok score
    /\ generate_feedback stop_list score t = Ok fb
    /\ (0 <= score <= 100)%Q
    /\ ats_checker stop_list pdf_pages docx_process exn_str req now db
       = {| resp :=
              Template "ats_results.html"
                [ ("score", VNumber (py_round1 score));
                  ("feedback", VLines fb);
                  ("filename", VText (filename file)) ];
            flashed := [];
            store :=
              update_analytics AtsChecks
                (insert_resume
                   {| resume_filename := filename file;
                      resume_ats_score := score;
                      resume_upload_date := now;
                      resume_contact_info := extract_email t |} db) |}.
Proof. exact (ats_checker_reply req now db file). Qed.

(** X17.  A POST of an allowed file to the resume ranking never flashes
    an error: it shows the success page with a score between 0 and 100,
    stores one row and calls [update_analytics] once. *)
Theorem resume_ranking_accepts req now db file :
  method req = POST ->
  files req !! "resume"%string = Some file ->
  allowed_file (filename file) = true ->
  let t := extract_text pdf_pages docx_process file in
  exists score,
    calculate_ats_score stop_list t = Ok score
    /\ (0 <= score <= 100)%Q
    /\ resume_ranking stop_list pdf_pages docx_process exn_str req now db
       = {| resp :=
              Template "upload_success.html"
                [ ("score", VNumber (py_round1 score));
                  ("filename", VText (filename file)) ];
            flashed := [];
            store :=
              update_analytics ResumesUploaded
                (insert_resume
                   {| resume_filename := filename file;
                      resume_ats_score := score;
                      resume_upload_date := now;
                      resume_contact_info := extract_email t |} db) |}.
Proof.
  intros Hm Hf Ha t.
  destruct (ats_check_ok t) as (score & fb & _ & Hs & _ & Bs).
  exists score. split; [exact Hs|]. split; [exact Bs|].
  unfold resume_ranking. rewrite Hm, Hf.
  rewrite bool_decide_eq_false_2 by (apply allowed_file_nonempty, Ha).
  rewrite Ha. fold t. rewrite Hs, (py_or_email t). reflexivity.
Qed.

Lemma compatibility_test_scored req now db resume_file job_desc_file :
  method req = POST ->
  files req !! "resume"%string = Some resume_file ->
  files req !! "jobdescription"%string = Some job_desc_file ->
  allowed_file (filename resume_file) = true ->
  allowed_file (filename job_desc_file) = true ->
  compatibility_test pdf_pages docx_process format_number exn_str req now db
  = match calculate_match_score
            (extract_text pdf_pages docx_process resume_file)
            (extract_text pdf_pages docx_process job_desc_file) with
    | Ok score =>
        {| resp :=
             Template "compatibility_results.html"
               [ ("score", VNumber (py_round1 score));
                 ("feedback",
                  VMessage (generate_match_feedback format_number score));
                 ("resume_filename", VText (filename resume_file));
                 ("job_desc_filename", VText (filename job_desc_file)) ];
           flashed := [];
           store :=
             update_analytics MatchChecks
               (insert_job_match
                  {| match_resume_filename := filename resume_file;
                     match_jd_filename := filename job_desc_file;
                     match_match_score := score;
                     match_analysis_date := now |} db) |}
    | Raise e =>
        {| resp := Plain ("Error processing files: " ++ exn_str e)%string 500;
           flashed := []; store := db |}
    end.
Proof.
  intros Hm Hr Hj Har Haj. unfold compatibility_test. rewrite Hm, Hr, Hj.
  rewrite (bool_decide_eq_false_2 _ (allowed_file_nonempty _ Har)).
  rewrite (bool_decide_eq_false_2 _ (allowed_file_nonempty _ Haj)).
  rewrite Har, Haj. reflexivity.
Qed.

(** X18.  When the text extracted from the job description holds only
    whitespace (or nothing), the compatibility test answers with status
    500 and the message of [ZeroDivisionError], and leaves the database as
    it was. *)
Theorem compatibility_test_blank req now db resume_file job_desc_file :
  method req = POST ->
  files req !! "resume"%string = Some resume_file ->
  files req !! "jobdescription"%string = Some job_desc_file ->
  allowed_file (filename resume_file) = true ->
  allowed_file (filename job_desc_file) = true ->
  forallb py_isspace (extract_text pdf_pages docx_process job_desc_file) = true ->
  compatibility_test pdf_pages docx_process format_number exn_str req now db
  = {| resp :=
         Plain ("Error processing files: " ++ exn_str ZeroDivisionError)%string
           500;
       flashed := []; store := db |}.
Proof.
  intros Hm Hr Hj Har Haj Hb.
  rewrite (compatibility_test_scored req now db _ _ Hm Hr Hj Har Haj).
  apply token_set_empty in Hb. unfold calculate_match_score. rewrite Hb.
  reflexivity.
Qed.

(** X19.  When the text extracted from the job description holds a
    token, the compatibility test shows the results page with a score
    between 0 and 100, stores one row and calls [update_analytics] once. *)
Theorem compatibility_test_scores req now db resume_file job_desc_file :
  method req = POST ->
  files req !! "resume"%string = Some resume_file ->
  files req !! "jobdescription"%string = Some job_desc_file ->
  allowed_file (filename resume_file) = true ->
  allowed_file (filename job_desc_file) = true ->
  forallb py_isspace (extract_text pdf_pages docx_process job_desc_file) = false ->
  exists score,
    calculate_match_score (extract_text pdf_pages docx_process resume_file)
      (extract_text pdf_pages docx_process job_desc_file) = Ok score
    /\ (0 <= score <= 100)%Q
    /\ compatibility_test pdf_pages docx_process format_number exn_str
         req now db
       = {| resp :=
              Template "compatibility_results.html"
                [ ("score", VNumber (py_round1 score));
                  ("feedback",
                   VMessage (generate_match_feedback format_number score));
                  ("resume_filename", VText (filename resume_file));
                  ("job_desc_filename", VText (filename job_desc_file)) ];
            flashed := [];
            store :=
              update_analytics MatchChecks
                (insert_job_match
                   {| match_resume_filename := filename resume_file;
                      match_jd_filename := filename job_desc_file;
                      match_match_score := score;
                      match_analysis_date := now |} db) |}.
Proof.
  intros Hm Hr Hj Har Haj Hb.
  assert (Hne : token_set (extract_text pdf_pages docx_process job_desc_file) ≠ ∅).
  { intros E. apply token_set_empty in E. congruence. }
  pose proof (match_score_value
                (extract_text pdf_pages docx_process resume_file) _ Hne) as Hs.
  eexists. split; [exact Hs|].
  split.
  { destruct (token_sizes
                (token_set (extract_text pdf_pages docx_process resume_file))
                _ Hne) as [Hc Hn].
    apply (score_of_sizes_near _ _ Hc Hn). }
  rewrite (compatibility_test_scored req now db _ _ Hm Hr Hj Har Haj), Hs.
  reflexivity.
Qed.

(** What a request does to the database: nothing, or one row more in
    one table and one call of [update_analytics]. *)
Lemma handle_store r req now db :
  let db' := store (handle stop_list pdf_pages docx_process format_number
                      exn_str r req now db) in
  db' = db
  \/ (exists row field, field <> JdsUploaded
        /\ db' = update_analytics field (insert_resume row db))
  \/ (exists row, db' = update_analytics MatchChecks (insert_job_match row db)).
Proof.
  destruct r; cbn [handle];
    unfold ats_checker, compatibility_test, resume_ranking;
    repeat case_match; cbn [store]; auto;
    right; [left|right|left]; eauto;
    do 2 eexists; (split; [|reflexivity]); discriminate.
Qed.

Lemma bump_jds field row :
  field <> JdsUploaded -> jds_uploaded (bump field row) = jds_uploaded row.
Proof. destruct field; [reflexivity|congruence|reflexivity|reflexivity]. Qed.

Lemma update_analytics_jds field db id :
  field <> JdsUploaded ->
  jds_uploaded <$> (app_analytics (update_analytics field db) !! id)
  = jds_uploaded <$> (app_analytics db !! id).
Proof.
  intros H. cbn [update_analytics app_analytics]. rewrite lookup_alter.
  destruct (decide (1%Z = id)) as [<-|]; [|reflexivity].
  destruct (app_analytics db !! 1%Z) as [row|]; [|reflexivity].
  cbn. rewrite (bump_jds field row H). reflexivity.
Qed.

(** X20.  A job description whose extension is "pdf" or "docx" with a
    capital letter in it is accepted, read as the empty text, and makes
    the compatibility test answer with status 500, whatever the file
    holds. *)
Theorem compatibility_test_upper_case_extension
    req now db resume_file base ext body :
  method req = POST ->
  files req !! "resume"%string = Some resume_file ->
  files req !! "jobdescription"%string
  = Some {| filename := base ++ "."%char :: ext; content := body |} ->
  allowed_file (filename resume_file) = true ->
  ~ In "."%char ext ->
  py_lower ext ∈ ALLOWED_EXTENSIONS ->
  ext <> py_lower ext ->
  compatibility_test pdf_pages docx_process format_number exn_str req now db
  = {| resp :=
         Plain ("Error processing files: " ++ exn_str ZeroDivisionError)%string
           500;
       flashed := []; store := db |}.
Proof.
  intros Hm Hr Hj Har Hdot Hal Hne.
  rewrite (compatibility_test_scored req now db _ _ Hm Hr Hj Har).
  - rewrite (case_mismatch_extracts_nothing _ _ base ext body Hdot Hne).
    reflexivity.
  - cbn [filename]. rewrite (allowed_file_dot base ext Hdot).
    apply bool_decide_eq_true_2, Hal.
Qed.

(** X21.  A resume whose extension is "pdf" or "docx" with a capital
    letter in it is accepted and read as the empty text: the ATS check
    stores the score 0 and the contact "Not Found" for it, and the
    feedback holds the "too short" line, whatever the file holds. *)
Theorem ats_checker_upper_case_extension req now db base ext body :
  method req = POST ->
  files req !! "resume"%string
  = Some {| filename := base ++ "."%char :: ext; content := body |} ->
  ~ In "."%char ext ->
  py_lower ext ∈ ALLOWED_EXTENSIONS ->
  ext <> py_lower ext ->
  exists score fb,
    (score == 0)%Q /\ In too_short_line fb
    /\ ats_checker stop_list pdf_pages docx_process exn_str req now db
       = {| resp :=
              Template "ats_results.html"
                [ ("score", VNumber (py_round1 score));
                  ("feedback", VLines fb);
                  ("filename", VText (base ++ "."%char :: ext)) ];
            flashed := [];
            store :=
              update_analytics AtsChecks
                (insert_resume
                   {| resume_filename := base ++ "."%char :: ext;
                      resume_ats_score := score;
                      resume_upload_date := now;
                      resume_contact_info := str "Not Found" |} db) |}.
Proof.
  intros Hm Hf Hdot Hal Hne.
  assert (Ha : allowed_file (base ++ "."%char :: ext) = true).
  { rewrite (allowed_file_dot base ext Hdot). apply bool_decide_eq_true_2, Hal. }
  destruct (ats_checker_reply req now db _ Hm Hf Ha)
    as (score & fb & Hs & Hfb & _ & Hreply).
  cbv zeta in Hs, Hfb, Hreply. cbn [filename] in Hreply.
  rewrite (case_mismatch_extracts_nothing _ _ base ext body Hdot Hne)
    in Hs, Hfb, Hreply.
  assert (Hs0 : calculate_ats_score stop_list [] = Ok (0 # 225000000000))
    by (vm_compute; reflexivity).
  rewrite Hs0 in Hs. injection Hs as <-.
  exists (0 # 225000000000), fb. split; [reflexivity|].
  split; [|exact Hreply].
  vm_compute in Hfb. injection Hfb as <-.
  apply in_by_eqb. vm_compute. reflexivity.
Qed.

Lemma handle_analytics_absent r req now db :
  app_analytics db !! 1%Z = None ->
  app_analytics (store (handle stop_list pdf_pages docx_process format_number
                          exn_str r req now db))
  = app_analytics db.
Proof.
  intros H.
  destruct (handle_store r req now db)
    as [->|[(row & field & _ & ->)|(row & ->)]]; [reflexivity| |];
    rewrite update_analytics_absent; try reflexivity; exact H.
Qed.

(** X22.  While [app_analytics] has no row with id 1, as after [init_db],
    no series of requests to the three upload routes changes the table:
    the checks are not counted. *)
Theorem checks_uncounted_without_row reqs db :
  app_analytics db !! 1%Z = None ->
  app_analytics (serve stop_list pdf_pages docx_process format_number exn_str
                   reqs db)
  = app_analytics db.
Proof.
  revert db. induction reqs as [|[[r req] now] reqs IH]; intros db H;
    [reflexivity|].
  cbn [serve]. rewrite IH; rewrite handle_analytics_absent; auto.
Qed.

(** X23.  No series of requests to the three upload routes changes the
    counter [jds_uploaded] of any row. *)
Theorem jds_uploaded_never_changes reqs db id :
  jds_uploaded
    <$> (app_analytics (serve stop_list pdf_pages docx_process format_number
                          exn_str reqs db) !! id)
  = jds_uploaded <$> (app_analytics db !! id).
Proof.
  revert db. induction reqs as [|[[r req] now] reqs IH]; intros db;
    [reflexivity|].
  cbn [serve]. rewrite IH.
  destruct (handle_store r req now db)
    as [->|[(row & field & Hf & ->)|(row & ->)]]; [reflexivity| |];
    rewrite update_analytics_jds; [reflexivity|exact Hf|reflexivity|discriminate].
Qed.

(** X24.  The upload routes only append: after any series of requests
    the rows stored before are still there, in the same order and
    unchanged, and each request has added at most one row. *)
Theorem stored_rows_append_only reqs db :
  let db' := serve stop_list pdf_pages docx_process format_number exn_str
               reqs db in
  resumes db `prefix_of` resumes db'
  /\ job_matches db `prefix_of` job_matches db'
  /\ (length (resumes db') + length (job_matches db')
      <= length (resumes db) + length (job_matches db) + length reqs)%nat.
Proof.
  revert db. induction reqs as [|[[r req] now] reqs IH]; intros db.
  - cbn [serve length]. repeat split; [reflexivity|reflexivity|lia].
  - cbn [serve]. cbv zeta in IH |- *.
    set (mid := store (handle stop_list pdf_pages docx_process format_number
                         exn_str r req now db)).
    destruct (IH mid) as (Hr & Hm & Hl).
    assert (Hstep : resumes db `prefix_of` resumes mid
                    /\ job_matches db `prefix_of` job_matches mid
                    /\ (length (resumes mid) + length (job_matches mid)
                        <= length (resumes db) + length (job_matches db) + 1)%nat).
    { destruct (handle_store r req now db)
        as [E|[(row & field & _ & E)|(row & E)]]; cbv zeta in E; fold mid in E;
        rewrite E;
        cbn [update_analytics insert_resume insert_job_match resumes job_matches];
        rewrite ?length_app; cbn [length];
        (split; [|split; [|lia]]);
        first [reflexivity | apply prefix_app_r; reflexivity]. }
    destruct Hstep as (Sr & Sm & Sl).
    split; [etransitivity; eassumption|].
    split; [etransitivity; eassumption|]. cbn [length]. lia.
Qed.

Lemma grown_by_refl o : grown_by 0 o o.
Proof.
  destruct o as [row|]; [|exact I]. unfold grown_by, counters_le. lia.
Qed.

Lemma grown_by_trans n m a b c :
  grown_by n a b -> grown_by m b c -> grown_by (n + m) a c.
Proof.
  destruct a as [ra|], b as [rb|], c as [rc|]; cbn; try tauto.
  unfold counters_le. lia.
Qed.

Lemma grown_by_weaken n m a b : (n <= m)%Z -> grown_by n a b -> grown_by m a b.
Proof.
  intros H. destruct a as [ra|], b as [rb|]; cbn; try tauto.
  intros [Hc Ht]. split; [exact Hc|lia].
Qed.

Lemma bump_grown field row : grown_by 1 (Some row) (Some (bump field row)).
Proof.
  destruct field; cbn; unfold counters_le, counter_total; cbn; lia.
Qed.

Lemma update_analytics_grown field db id :
  grown_by 1 (app_analytics db !! id)
    (app_analytics (update_analytics field db) !! id)
  /\ (id <> 1%Z ->
      app_analytics (update_analytics field db) !! id = app_analytics db !! id).
Proof.
  cbn [update_analytics app_analytics]. split.
  - rewrite lookup_alter. destruct (decide (1%Z = id)) as [<-|].
    + destruct (app_analytics db !! 1%Z) as [row|]; [apply bump_grown|exact I].
    + apply (grown_by_weaken 0); [lia|apply grown_by_refl].
  - intros H. apply lookup_alter_ne. congruence.
Qed.

Lemma handle_grown r req now db id :
  let db' := store (handle stop_list pdf_pages docx_process format_number
                      exn_str r req now db) in
  grown_by 1 (app_analytics db !! id) (app_analytics db' !! id)
  /\ (id <> 1%Z -> app_analytics db' !! id = app_analytics db !! id).
Proof.
  destruct (handle_store r req now db)
    as [E|[(row & field & _ & E)|(row & E)]]; cbv zeta in E |- *; rewrite E.
  - split; [|reflexivity]. apply (grown_by_weaken 0); [lia|apply grown_by_refl].
  - apply (update_analytics_grown field (insert_resume row db) id).
  - apply (update_analytics_grown MatchChecks (insert_job_match row db) id).
Qed.

(** X15.  Over any series of requests to the three upload routes no row
    of [app_analytics] is added or deleted, no counter decreases, the sum
    of the four counters of a row grows by at most one for each request,
    and every row but the one with id 1 stays as it is. *)
Theorem counters_only_grow reqs db id :
  let db' := serve stop_list pdf_pages docx_process format_number exn_str
               reqs db in
  grown_by (Z.of_nat (length reqs)) (app_analytics db !! id)
    (app_analytics db' !! id)
  /\ (id <> 1%Z -> app_analytics db' !! id = app_analytics db !! id).
Proof.
  revert db. induction reqs as [|[[r req] now] reqs IH]; intros db.
  - cbn [serve length]. split; [apply grown_by_refl|reflexivity].
  - cbn [serve]. cbv zeta in IH |- *.
    set (mid := store (handle stop_list pdf_pages docx_process format_number
                         exn_str r req now db)).
    destruct (IH mid) as [Hg He].
    destruct (handle_grown r req now db id) as [Sg Se]. fold mid in Sg, Se.
    split.
    + replace (Z.of_nat (length ((r, req, now) :: reqs)))
        with (1 + Z.of_nat (length reqs))%Z by (cbn [length]; lia).
      eapply grown_by_trans; eassumption.
    + intros H. rewrite (He H). apply Se, H.
Qed.

(** X25.  When every token of the job description is in the resume the
    match feedback ends with "Excellent match!"; when none is, it ends
    with "Low match. Consider tailoring your resume.". *)
Theorem match_feedback_extremes (resume_text job_desc_text : text) :
  token_set job_desc_text ≠ ∅ ->
  (token_set job_desc_text ⊆ token_set resume_text ->
   exists q, calculate_match_score resume_text job_desc_text = Ok q
     /\ generate_match_feedback format_number q
        = (("Your resume matches " ++ format_number q
              ++ "% of the job description keywords. ")
             ++ "Excellent match!")%string)
  /\ (token_set resume_text ∩ token_set job_desc_text = ∅ ->
      exists q, calculate_match_score resume_text job_desc_text = Ok q
        /\ generate_match_feedback format_number q
           = (("Your resume matches " ++ format_number q
                 ++ "% of the job description keywords. ")
                ++ "Low match. Consider tailoring your resume.")%string).
Proof.
  intros Hne. split; intros H.
  - destruct (full_coverage_value resume_text job_desc_text Hne H) as (q & Hq & E).
    exists q. split; [exact Hq|]. unfold generate_match_feedback.
    rewrite (proj2 (Qltb_lt 70 q)) by lra. reflexivity.
  - destruct (no_overlap_value resume_text job_desc_text Hne H) as (q & Hq & E).
    exists q. split; [exact Hq|]. unfold generate_match_feedback.
    rewrite (Qltb_ge 70 q), (Qltb_ge 40 q) by lra. reflexivity.
Qed.

End RouteFacts.

(** X15 at an ATS check and a compatibility test on a table whose row 1
    counts two ATS checks. *)
Lemma counters_only_grow_witness :
  let db :=
    {| resumes := []; job_matches := [];
       app_analytics :=
         {[ 1%Z := {| resumes_uploaded := 0; jds_uploaded := 0;
                      ats_checks := 2; match_checks := 0 |} ]} |} in
  let reqs :=
    [ (AtsChecker, post_resume (str "cv.pdf") (str "JANE DOE"),
       str "2025-01-01 10:00:00");
      (CompatibilityTest,
       post_pair (str "cv.pdf") (str "python") (str "jd.docx")
         (str "python sql"),
       str "2025-01-01 10:05:00") ] in
  grown_by 2 (app_analytics db !! 1%Z)
    (app_analytics
       (serve [] sample_pdf_pages sample_docx_process sample_format
          sample_exn_str reqs db) !! 1%Z).
Proof.
  intros db reqs.
  exact (proj1 (counters_only_grow [] sample_pdf_pages sample_docx_process
                  sample_format sample_exn_str reqs db 1%Z)).
Defined.

(** X16 at the upload of "cv.pdf". *)
Lemma ats_checker_accepts_witness :
  exists score fb,
    calculate_ats_score [] (str "JANE DOE jane@doe.org") = Ok score
    /\ generate_feedback [] score (str "JANE DOE jane@doe.org") = Ok fb
    /\ (0 <= score <= 100)%Q
    /\ ats_checker [] sample_pdf_pages sample_docx_process sample_exn_str
         (post_resume (str "cv.pdf") (str "JANE DOE jane@doe.org"))
         (str "2025-01-01 10:00:00") init_db
       = {| resp :=
              Template "ats_results.html"
                [ ("score", VNumber (py_round1 score));
                  ("feedback", VLines fb);
                  ("filename", VText (str "cv.pdf")) ];
            flashed := [];
            store :=
              update_analytics AtsChecks
                (insert_resume
                   {| resume_filename := str "cv.pdf";
                      resume_ats_score := score;
                      resume_upload_date := str "2025-01-01 10:00:00";
                      resume_contact_info := str "jane@doe.org" |}
                   init_db) |}.
Proof.
  apply (ats_checker_accepts [] sample_pdf_pages sample_docx_process
           sample_exn_str
           (post_resume (str "cv.pdf") (str "JANE DOE jane@doe.org"))
           (str "2025-01-01 10:00:00") init_db
           {| filename := str "cv.pdf";
              content := str "JANE DOE jane@doe.org" |});
    reflexivity.
Defined.

(** X17 at the upload of "cv.docx". *)
Lemma resume_ranking_accepts_witness :
  exists score,
    calculate_ats_score [] (str "JANE DOE jane@doe.org") = Ok score
    /\ (0 <= score <= 100)%Q
    /\ resume_ranking [] sample_pdf_pages sample_docx_process sample_exn_str
         (post_resume (str "cv.docx") (str "JANE DOE jane@doe.org"))
         (str "2025-01-01 10:00:00") init_db
       = {| resp :=
              Template "upload_success.html"
                [ ("score", VNumber (py_round1 score));
                  ("filename", VText (str "cv.docx")) ];
            flashed := [];
            store :=
              update_analytics ResumesUploaded
                (insert_resume
                   {| resume_filename := str "cv.docx";
                      resume_ats_score := score;
                      resume_upload_date := str "2025-01-01 10:00:00";
                      resume_contact_info := str "jane@doe.org" |}
                   init_db) |}.
Proof.
  apply (resume_ranking_accepts [] sample_pdf_pages sample_docx_process
           sample_exn_str
           (post_resume (str "cv.docx") (str "JANE DOE jane@doe.org"))
           (str "2025-01-01 10:00:00") init_db
           {| filename := str "cv.docx";
              content := str "JANE DOE jane@doe.org" |});
    reflexivity.
Defined.

(** X18 at a job description of one blank line. *)
Lemma compatibility_test_blank_witness :
  compatibility_test sample_pdf_pages sample_docx_process sample_format
    sample_exn_str
    (post_pair (str "cv.pdf") (str "python") (str "jd.docx") (str " "))
    (str "2025-01-01 10:00:00") init_db
  = {| resp := Plain "Error processing files: division by zero" 500;
       flashed := []; store := init_db |}.
Proof.
  apply (compatibility_test_blank sample_pdf_pages sample_docx_process
           sample_format sample_exn_str
           (post_pair (str "cv.pdf") (str "python") (str "jd.docx") (str " "))
           (str "2025-01-01 10:00:00") init_db
           {| filename := str "cv.pdf"; content := str "python" |}
           {| filename := str "jd.docx"; content := str " " |});
    reflexivity.
Defined.

(** X19 at the resume "python" against the job description
    "python sql". *)
Lemma compatibility_test_scores_witness :
  exists score,
    calculate_match_score (str "python") (str "python sql") = Ok score
    /\ (0 <= score <= 100)%Q
    /\ compatibility_test sample_pdf_pages sample_docx_process sample_format
         sample_exn_str
         (post_pair (str "cv.pdf") (str "python") (str "jd.docx")
            (str "python sql"))
         (str "2025-01-01 10:00:00") init_db
       = {| resp :=
              Template "compatibility_results.html"
                [ ("score", VNumber (py_round1 score));
                  ("feedback",
                   VMessage (generate_match_feedback sample_format score));
                  ("resume_filename", VText (str "cv.pdf"));
                  ("job_desc_filename", VText (str "jd.docx")) ];
            flashed := [];
            store :=
              update_analytics MatchChecks
                (insert_job_match
                   {| match_resume_filename := str "cv.pdf";
                      match_jd_filename := str "jd.docx";
                      match_match_score := score;
                      match_analysis_date := str "2025-01-01 10:00:00" |}
                   init_db) |}.
Proof.
  apply (compatibility_test_scores sample_pdf_pages sample_docx_process
           sample_format sample_exn_str
           (post_pair (str "cv.pdf") (str "python") (str "jd.docx")
              (str "python sql"))
           (str "2025-01-01 10:00:00") init_db
           {| filename := str "cv.pdf"; content := str "python" |}
           {| filename := str "jd.docx"; content := str "python sql" |});
    reflexivity.
Defined.

(** X20 at the job description "JD.PDF". *)
Lemma compatibility_test_upper_case_extension_witness :
  compatibility_test sample_pdf_pages sample_docx_process sample_format
    sample_exn_str
    (post_pair (str "cv.pdf") (str "python")
       (str "JD" ++ "."%char :: str "PDF") (str "python sql"))
    (str "2025-01-01 10:00:00") init_db
  = {| resp := Plain "Error processing files: division by zero" 500;
       flashed := []; store := init_db |}.
Proof.
  apply (compatibility_test_upper_case_extension sample_pdf_pages
           sample_docx_process sample_format sample_exn_str
           (post_pair (str "cv.pdf") (str "python")
              (str "JD" ++ "."%char :: str "PDF") (str "python sql"))
           (str "2025-01-01 10:00:00") init_db
           {| filename := str "cv.pdf"; content := str "python" |}
           (str "JD") (str "PDF") (str "python sql")).
  - reflexivity.
  - reflexivity.
  - reflexivity.
  - reflexivity.
  - vm_compute. intuition discriminate.
  - apply (bool_decide_eq_true_1 _). vm_compute. reflexivity.
  - discriminate.
Defined.

(** X21 at the resume "CV.PDF". *)
Lemma ats_checker_upper_case_extension_witness :
  exists score fb,
    (score == 0)%Q /\ In too_short_line fb
    /\ ats_checker [] sample_pdf_pages sample_docx_process sample_exn_str
         (post_resume (str "CV" ++ "."%char :: str "PDF")
            (str "JANE DOE jane@doe.org"))
         (str "2025-01-01 10:00:00") init_db
       = {| resp :=
              Template "ats_results.html"
                [ ("score", VNumber (py_round1 score));
                  ("feedback", VLines fb);
                  ("filename", VText (str "CV" ++ "."%char :: str "PDF")) ];
            flashed := [];
            store :=
              update_analytics AtsChecks
                (insert_resume
                   {| resume_filename := str "CV" ++ "."%char :: str "PDF";
                      resume_ats_score := score;
                      resume_upload_date := str "2025-01-01 10:00:00";
                      resume_contact_info := str "Not Found" |}
                   init_db) |}.
Proof.
  apply (ats_checker_upper_case_extension [] sample_pdf_pages
           sample_docx_process sample_exn_str
           (post_resume (str "CV" ++ "."%char :: str "PDF")
              (str "JANE DOE jane@doe.org"))
           (str "2025-01-01 10:00:00") init_db
           (str "CV") (str "PDF") (str "JANE DOE jane@doe.org")).
  - reflexivity.
  - reflexivity.
  - vm_compute. intuition discriminate.
  - apply (bool_decide_eq_true_1 _). vm_compute. reflexivity.
  - discriminate.
Defined.

(** X22 at an ATS check and a compatibility test on the new database. *)
Lemma checks_uncounted_without_row_witness :
  app_analytics
    (serve [] sample_pdf_pages sample_docx_process sample_format
       sample_exn_str
       [ (AtsChecker, post_resume (str "cv.pdf") (str "JANE DOE"),
          str "2025-01-01 10:00:00");
         (CompatibilityTest,
          post_pair (str "cv.pdf") (str "python") (str "jd.docx")
            (str "python sql"),
          str "2025-01-01 10:05:00") ]
       init_db)
  = app_analytics init_db.
Proof.
  apply checks_uncounted_without_row. reflexivity.
Defined.

(** X25 at "python and sql" and at "java" against "python sql". *)
Lemma match_feedback_extremes_witness :
  (exists q, calculate_match_score (str "python and sql") (str "python sql")
             = Ok q
     /\ generate_match_feedback sample_format q
        = (("Your resume matches " ++ sample_format q
              ++ "% of the job description keywords. ")
             ++ "Excellent match!")%string)
  /\ (exists q, calculate_match_score (str "java") (str "python sql") = Ok q
        /\ generate_match_feedback sample_format q
           = (("Your resume matches " ++ sample_format q
                 ++ "% of the job description keywords. ")
                ++ "Low match. Consider tailoring your resume.")%string).
Proof.
  split.
  - apply (match_feedback_extremes sample_format (str "python and sql")
             (str "python sql")).
    + apply (bool_decide_eq_false_1 _). vm_compute. reflexivity.
    + apply (bool_decide_eq_true_1 _). vm_compute. reflexivity.
  - apply (match_feedback_extremes sample_format (str "java")
             (str "python sql")).
    + apply (bool_decide_eq_false_1 _). vm_compute. reflexivity.
    + apply (bool_decide_eq_true_1 _). vm_compute. reflexivity.
Defined.
